(** * obsidian-hoarder: the pure core of the bookmark synchroniser

    A shallow embedding of the decision logic of the plugin (tag sanitizer,
    tag filter, title resolver, filename builder, document renderer, notes
    extractor, deletion classifier, the guard of the sync pass) and the
    properties its specification states about them.

    JavaScript strings are sequences of UTF-16 code units: a string is a
    [list N], one number per code unit.  Every theorem quantified over
    strings therefore covers all JavaScript strings. *)

From Stdlib Require Import ZArith NArith Bool Lia Ascii String.
From Stdlib Require DecimalNat.
From stdpp Require Import base list gmap.

Local Open Scope list_scope.

(** ** JavaScript strings *)

Abbreviation jsstring := (list N).

(** The code units of a string literal of the source.  As in JavaScript, a
    backslash followed by [n] in the literal is one line feed (code unit 10);
    every other character stands for itself. *)
Fixpoint unescape (cs : list ascii) : jsstring :=
  match cs with
  | [] => []
  | c :: cs' =>
      match cs' with
      | d :: cs'' =>
          if (N_of_ascii c =? 92)%N && (N_of_ascii d =? 110)%N
          then 10%N :: unescape cs''
          else N_of_ascii c :: unescape cs'
      | [] => [N_of_ascii c]
      end
  end.

Definition lit (s : String.string) : jsstring :=
  unescape (list_ascii_of_string s).

(** [string | null | undefined] *)
Inductive nullable (A : Type) : Type :=
| Null : nullable A
| Undefined : nullable A
| Val : A -> nullable A.
Arguments Null {A}.
Arguments Undefined {A}.
Arguments Val {A} _.

(** JavaScript truthiness of a nullable string: [null], [undefined] and the
    empty string are falsy. *)
Definition truthy (v : nullable jsstring) : bool :=
  match v with
  | Val (_ :: _) => true
  | _ => false
  end.

(** [v || empty-string] *)
Definition orEmpty (v : nullable jsstring) : jsstring :=
  match v with
  | Val s => s
  | _ => []
  end.

Module Chars.
Definition tab : N := 9.
Definition nl : N := 10.
Definition space : N := 32.
Definition dquote : N := 34.
Definition hash : N := 35.
Definition squote : N := 39.
Definition dash : N := 45.
Definition dot : N := 46.
Definition slash : N := 47.
Definition lbracket : N := 91.
Definition backslash : N := 92.
Definition underscore : N := 95.

Definition inRange (lo hi c : N) : bool := (lo <=? c)%N && (c <=? hi)%N.

(** The class [\s] of ECMAScript regular expressions, which is also the set
      that [String.prototype.trim] removes: WhiteSpace and LineTerminator. *)
Definition isWhiteSpace (c : N) : bool :=
    inRange 9 13 c || (c =? 32)%N || (c =? 160)%N || (c =? 5760)%N
    || inRange 8192 8202 c || (c =? 8232)%N || (c =? 8233)%N
    || (c =? 8239)%N || (c =? 8287)%N || (c =? 12288)%N || (c =? 65279)%N.

(** [\d] *)
Definition isDigit (c : N) : bool := inRange 48 57 c.

(** [a-zA-Z] *)
Definition isLetter (c : N) : bool := inRange 65 90 c || inRange 97 122 c.

(** [a-zA-Z0-9_\-/], the characters a tag keeps *)
Definition isTagChar (c : N) : bool :=
    isLetter c || isDigit c || (c =? underscore)%N || (c =? dash)%N
    || (c =? slash)%N.

(** [\d\/\-_] *)
Definition isDigitOrSep (c : N) : bool :=
    isDigit c || (c =? slash)%N || (c =? dash)%N || (c =? underscore)%N.

(** The class of the characters a file name must not contain: backslash,
      slash, colon, star, question mark, double quote, angle brackets and
      the vertical bar. *)
Definition isFsHostile (c : N) : bool :=
    (c =? backslash)%N || (c =? slash)%N || (c =? 58)%N || (c =? 42)%N
    || (c =? 63)%N || (c =? dquote)%N || (c =? 60)%N || (c =? 62)%N
    || (c =? 124)%N.

(** [:#{}\[\],&*?|<>=!%@`], the characters that force a block scalar *)
Definition isYamlSpecial (c : N) : bool :=
    (c =? 58)%N || (c =? hash)%N || (c =? 123)%N || (c =? 125)%N
    || (c =? lbracket)%N || (c =? 93)%N || (c =? 44)%N || (c =? 38)%N
    || (c =? 42)%N || (c =? 63)%N || (c =? 124)%N || (c =? 60)%N
    || (c =? 62)%N || (c =? 61)%N || (c =? 33)%N || (c =? 37)%N
    || (c =? 64)%N || (c =? 96)%N.

(** [<>[\](){}] *)
Definition isPathSpecial (c : N) : bool :=
    (c =? 60)%N || (c =? 62)%N || (c =? lbracket)%N || (c =? 93)%N
    || (c =? 40)%N || (c =? 41)%N || (c =? 123)%N || (c =? 125)%N.
End Chars.
Import Chars.

(** ** String primitives used by the source *)

Module JS.
Definition isEmpty (s : jsstring) : bool :=
    match s with [] => true | _ => false end.

Fixpoint dropWhile (p : N -> bool) (s : jsstring) : jsstring :=
    match s with
    | [] => []
    | c :: s' => if p c then dropWhile p s' else s
    end.

Fixpoint takeWhile (p : N -> bool) (s : jsstring) : jsstring :=
    match s with
    | [] => []
    | c :: s' => if p c then c :: takeWhile p s' else []
    end.

(** [s.trim()] *)
Definition trim (s : jsstring) : jsstring :=
    rev (dropWhile isWhiteSpace (rev (dropWhile isWhiteSpace s))).

(** [s.startsWith(p)] *)
Fixpoint startsWith (p s : jsstring) : bool :=
    match p, s with
    | [], _ => true
    | _ :: _, [] => false
    | a :: p', b :: s' => (a =? b)%N && startsWith p' s'
    end.

(** [s.includes(c)] for a one-character needle, and [/[class]/.test(s)] *)
Definition includesChar (c : N) (s : jsstring) : bool :=
    existsb (N.eqb c) s.
Definition testClass (p : N -> bool) (s : jsstring) : bool := existsb p s.

(** [s.replace(/[class]/g, r)]: every character of the class becomes [r]. *)
Fixpoint replaceEach (p : N -> bool) (r s : jsstring) : jsstring :=
    match s with
    | [] => []
    | c :: s' => (if p c then r else [c]) ++ replaceEach p r s'
    end.

(** [s.replace(/[class]+/g, r)]: every maximal run of characters of the
      class becomes one [r].  [inRun] tells that the previous character
      belonged to the run being replaced. *)
Fixpoint replaceRunsFrom (p : N -> bool) (r : jsstring) (inRun : bool)
      (s : jsstring) : jsstring :=
    match s with
    | [] => []
    | c :: s' =>
        if p c then (if inRun then [] else r) ++ replaceRunsFrom p r true s'
        else c :: replaceRunsFrom p r false s'
    end.
Definition replaceRuns (p : N -> bool) (r s : jsstring) : jsstring :=
    replaceRunsFrom p r false s.

(** [s.replace(/[^class]/g, empty)] *)
Definition keepOnly (p : N -> bool) (s : jsstring) : jsstring :=
    List.filter p s.

(** [/^[class]+$/.test(s)] (no [m] flag: [^] and [$] are the two ends) *)
Definition allOf (p : N -> bool) (s : jsstring) : bool :=
    negb (isEmpty s) && forallb p s.

(** [s.substring(0, n)] *)
Definition substring0 (n : nat) (s : jsstring) : jsstring := firstn n s.

(** [s.lastIndexOf(c)]: [None] stands for -1. *)
Fixpoint lastIndexOf (c : N) (s : jsstring) : option nat :=
    match s with
    | [] => None
    | d :: s' =>
        match lastIndexOf c s' with
        | Some i => Some (S i)
        | None => if (d =? c)%N then Some 0 else None
        end
    end.

(** [xs.join(sep)] *)
Fixpoint join (sep : jsstring) (xs : list jsstring) : jsstring :=
    match xs with
    | [] => []
    | [x] => x
    | x :: xs' => x ++ sep ++ join sep xs'
    end.
End JS.
Import JS.

(** ** Tag sanitizer (tag-utils.ts) *)

Definition sanitizeTag (tag : jsstring) : option jsstring :=
  let sanitized := trim tag in
  if isEmpty sanitized then None else
  let sanitized := replaceRuns isWhiteSpace (lit "-") sanitized in
  let sanitized := keepOnly isTagChar sanitized in
  if isEmpty sanitized then None else
  let sanitized :=
    if allOf isDigit sanitized then lit "tag-" ++ sanitized else sanitized in
  let sanitized :=
    if allOf isDigitOrSep sanitized then lit "tag-" ++ sanitized
    else sanitized in
  Some sanitized.

(** [tags.map(sanitizeTag).filter(tag => tag !== null)] *)
Definition sanitizeTags (tags : list jsstring) : list jsstring :=
  omap sanitizeTag tags.

(** ** Tag filter (filter-utils) *)

Inductive FilterReason : Type := excluded_tag | missing_included_tag.

Record FilterResult : Type := mkFilterResult {
  include : bool;
  reason : option FilterReason
}.

(** [xs.includes(x)] on an array of strings *)
Definition includes (x : jsstring) (xs : list jsstring) : bool :=
  bool_decide (x ∈ xs).

(** [xs.some(p)] *)
Definition some {A : Type} (p : A -> bool) (xs : list A) : bool := existsb p xs.

Definition shouldIncludeBookmark (bookmarkTags includedTags excludedTags :
    list jsstring) (isFavorited : bool) : FilterResult :=
  let missing :=
    (0 <? length includedTags)
    && negb (some (fun includedTag => includes includedTag bookmarkTags)
               includedTags) in
  if missing
  then {| include := false; reason := Some missing_included_tag |}
  else
    if negb isFavorited && (0 <? length excludedTags)
       && some (fun excludedTag => includes excludedTag bookmarkTags)
            excludedTags
    then {| include := false; reason := Some excluded_tag |}
    else {| include := true; reason := None |}.

(** ** Deletion and archival classifier (deletion-handler.ts) *)

Inductive DeletionAction : Type := delete | archive | tag | ignore.

Inductive DeletionReason : Type := deleted | archived.

Record DeletionSettings : Type := mkDeletionSettings {
  syncDeletions : bool;
  deletionAction : DeletionAction;
  handleArchivedBookmarks : bool;
  archivedBookmarkAction : DeletionAction
}.

Record FileHandlingInstruction : Type := mkInstruction {
  bookmarkId : jsstring;
  action : DeletionAction;
  instrReason : DeletionReason
}.

Record DeletionResults : Type := mkDeletionResults {
  deletedCount : nat;
  archivedCount : nat;
  taggedCount : nat;
  archivedHandled : nat
}.

Definition isIgnore (a : DeletionAction) : bool :=
  match a with ignore => true | _ => false end.

(** The body of the [for] loop for one local id: the instructions it pushes. *)
Definition instructionsFor (activeBookmarkIds archivedBookmarkIds :
    gset jsstring) (settings : DeletionSettings) (id : jsstring) :
    list FileHandlingInstruction :=
  let isActive := bool_decide (id ∈ activeBookmarkIds) in
  let isArchived := bool_decide (id ∈ archivedBookmarkIds) in
  if negb isActive && negb isArchived then
    if syncDeletions settings && negb (isIgnore (deletionAction settings))
    then [ {| bookmarkId := id; action := deletionAction settings;
              instrReason := deleted |} ]
    else []
  else if negb isActive && isArchived then
    if handleArchivedBookmarks settings
       && negb (isIgnore (archivedBookmarkAction settings))
    then [ {| bookmarkId := id; action := archivedBookmarkAction settings;
              instrReason := archived |} ]
    else []
  else [].

Definition determineDeletionActions (localBookmarkIds : list jsstring)
    (activeBookmarkIds archivedBookmarkIds : gset jsstring)
    (settings : DeletionSettings) : list FileHandlingInstruction :=
  if negb (syncDeletions settings) && negb (handleArchivedBookmarks settings)
  then []
  else
    flat_map (instructionsFor activeBookmarkIds archivedBookmarkIds settings)
      localBookmarkIds.

(** One turn of the counting loop. *)
Definition countOne (results : DeletionResults)
    (instruction : FileHandlingInstruction) : DeletionResults :=
  match instrReason instruction with
  | deleted =>
      match action instruction with
      | delete =>
          {| deletedCount := S (deletedCount results);
             archivedCount := archivedCount results;
             taggedCount := taggedCount results;
             archivedHandled := archivedHandled results |}
      | archive =>
          {| deletedCount := deletedCount results;
             archivedCount := S (archivedCount results);
             taggedCount := taggedCount results;
             archivedHandled := archivedHandled results |}
      | tag =>
          {| deletedCount := deletedCount results;
             archivedCount := archivedCount results;
             taggedCount := S (taggedCount results);
             archivedHandled := archivedHandled results |}
      | ignore => results
      end
  | archived =>
      {| deletedCount := deletedCount results;
         archivedCount := archivedCount results;
         taggedCount := taggedCount results;
         archivedHandled := S (archivedHandled results) |}
  end.

Definition countDeletionResults (instructions : list FileHandlingInstruction) :
    DeletionResults :=
  fold_left countOne instructions
    {| deletedCount := 0; archivedCount := 0; taggedCount := 0;
       archivedHandled := 0 |}.

(** The sum of the four counters. *)
Definition totalCounted (r : DeletionResults) : nat :=
  deletedCount r + archivedCount r + taggedCount r + archivedHandled r.

(** An instruction the switch of [countDeletionResults] has no case for. *)
Definition isIgnoredDeletion (i : FileHandlingInstruction) : bool :=
  match instrReason i, action i with
  | deleted, ignore => true
  | _, _ => false
  end.

(** ** Dates

    A [Date] object is modelled by the calendar fields of its time value in
    UTC, or is the invalid date ([new Date] of a string that does not parse).
    A valid time value lies within 100 000 000 days of the epoch, which bounds
    the year. *)

Record DateFields : Type := mkDate {
  year : Z;
  month : N;
  day : N;
  hours : N;
  minutes : N;
  seconds : N;
  millis : N
}.

Inductive JSDate : Type :=
| InvalidDate : JSDate
| UTC : DateFields -> JSDate.

Definition validFields (d : DateFields) : Prop :=
  (-271821 <= year d <= 275760)%Z
  /\ (1 <= month d <= 12)%N /\ (1 <= day d <= 31)%N
  /\ (hours d <= 23)%N /\ (minutes d <= 59)%N /\ (seconds d <= 59)%N
  /\ (millis d <= 999)%N.

(** The last [w] decimal digits of [n], most significant first. *)
Fixpoint decimal (w : nat) (n : N) : jsstring :=
  match w with
  | 0 => []
  | S w' => decimal w' (n / 10)%N ++ [(48 + n mod 10)%N]
  end.

(** The year of the ISO format: four digits from 0 to 9999, otherwise a sign
    and six digits (the expanded years of ECMAScript). *)
Definition isoYear (y : Z) : jsstring :=
  if (0 <=? y)%Z && (y <=? 9999)%Z then decimal 4 (Z.to_N y)
  else (if (y <? 0)%Z then lit "-" else lit "+") ++ decimal 6 (Z.abs_N y).

(** [YYYY-MM-DD] *)
Definition isoDate (d : DateFields) : jsstring :=
  isoYear (year d) ++ lit "-" ++ decimal 2 (month d) ++ lit "-"
  ++ decimal 2 (day d).

(** [date.toISOString()]; [None] is the [RangeError] of an invalid date. *)
Definition toISOString (date : JSDate) : option jsstring :=
  match date with
  | InvalidDate => None
  | UTC d =>
      Some (isoDate d ++ lit "T" ++ decimal 2 (hours d) ++ lit ":"
            ++ decimal 2 (minutes d) ++ lit ":" ++ decimal 2 (seconds d)
            ++ lit "." ++ decimal 3 (millis d) ++ lit "Z")
  end.

(** [s.split(c)[0]] *)
Definition splitHead (c : N) (s : jsstring) : jsstring :=
  takeWhile (fun d => negb (d =? c)%N) s.

(** [s.split(c)] *)
Fixpoint splitOn (c : N) (s : jsstring) : list jsstring :=
  match s with
  | [] => [[]]
  | d :: s' =>
      if (d =? c)%N then [] :: splitOn c s'
      else match splitOn c s' with
           | l :: ls => (d :: l) :: ls
           | [] => [[d]]
           end
  end.

(** [date.toISOString().split("T")[0]] *)
Definition isoDay (date : JSDate) : option jsstring :=
  match toISOString date with
  | None => None
  | Some iso => Some (splitHead 84 iso)
  end.

(** ** Filename builder (filename-utils.ts) *)

(** [s.replace(/^-|-$/g, empty)]: a dash at the start is removed, and a dash
    at the end of what follows is removed. *)
Definition stripEdgeDashes (s : jsstring) : jsstring :=
  let rest :=
    match s with
    | c :: s' => if (c =? dash)%N then s' else s
    | [] => []
    end in
  match rev rest with
  | c :: r => if (c =? dash)%N then rev r else rest
  | [] => rest
  end.

Definition cleanTitle (title : jsstring) : jsstring :=
  stripEdgeDashes
    (replaceRuns (N.eqb dash) (lit "-")
       (replaceRuns isWhiteSpace (lit "-")
          (replaceEach isFsHostile (lit "-") title))).

(** The truncation of a cleaned title to [maxTitleLength] characters, cutting
    at the last dash when it lies past [half]. *)
Definition truncateTitle (maxTitleLength half : nat)
    (sanitizedTitle : jsstring) : jsstring :=
  if maxTitleLength <? length sanitizedTitle then
    let truncated := substring0 maxTitleLength sanitizedTitle in
    match lastIndexOf dash truncated with
    | Some lastDash =>
        if half <? lastDash then substring0 lastDash truncated else truncated
    | None => truncated
    end
  else sanitizedTitle.

Definition sanitizeFileName (title : jsstring) (createdAt : JSDate) :
    option jsstring :=
  match isoDay createdAt with
  | None => None
  | Some dateStr =>
      let sanitizedTitle := truncateTitle 36 18 (cleanTitle title) in
      Some (dateStr ++ lit "-" ++ sanitizedTitle)
  end.

(** [sanitizeAssetFileName] of the asset handler: the same cleaning, with a
    shorter limit and no date. *)
Definition sanitizeAssetFileName (title : jsstring) : jsstring :=
  truncateTitle 30 15 (cleanTitle title).

(** ** Escaping (yaml-utils, markdown-utils) *)

(** [/^[ \t]|[ \t]$/.test(s)] *)
Definition isBlank (c : N) : bool := (c =? space)%N || (c =? tab)%N.
Definition edgeBlank (s : jsstring) : bool :=
  match s with
  | [] => false
  | c :: _ =>
      isBlank c || match rev s with d :: _ => isBlank d | [] => false end
  end.

Definition escapeYaml (str : nullable jsstring) : jsstring :=
  if negb (truthy str) then []
  else
    let s := orEmpty str in
    if includesChar nl s || testClass isYamlSpecial s
    then lit "|\n  " ++ replaceEach (N.eqb nl) (lit "\n  ") s
    else if includesChar dquote s then lit "'" ++ s ++ lit "'"
    else if includesChar squote s || edgeBlank s
    then [dquote] ++ replaceEach (N.eqb dquote) [backslash; dquote] s
         ++ [dquote]
    else s.

Definition escapeMarkdownPath (path : jsstring) : jsstring :=
  if includesChar space path || testClass isPathSpecial path
  then lit "<" ++ path ++ lit ">"
  else path.

Definition escapeTag (t : jsstring) : jsstring :=
  let processedTag := replaceRuns isWhiteSpace (lit "-") t in
  if includesChar dquote processedTag then lit "'" ++ processedTag ++ lit "'"
  else [dquote] ++ processedTag ++ [dquote].

(** ** Bookmarks (hoarder-client.ts) *)

Inductive ContentType : Type := link | text | asset | unknown.

Inductive AssetType : Type := image | pdf.

Inductive AttachedBy : Type := ai | human.

Record HoarderTag : Type := mkTag {
  tagId : jsstring;
  name : jsstring;
  attachedBy : AttachedBy
}.

Record HoarderBookmarkContent : Type := mkContent {
  type : ContentType;
  url : nullable jsstring;
  contentTitle : nullable jsstring;
  description : nullable jsstring;
  imageUrl : nullable jsstring;
  imageAssetId : nullable jsstring;
  screenshotAssetId : nullable jsstring;
  fullPageArchiveAssetId : nullable jsstring;
  videoAssetId : nullable jsstring;
  favicon : nullable jsstring;
  htmlContent : nullable jsstring;
  crawledAt : nullable jsstring;
  contentText : nullable jsstring;
  sourceUrl : nullable jsstring;
  assetType : option AssetType;
  assetId : nullable jsstring;
  fileName : nullable jsstring
}.

(** [createdAt] is the [Date] that [new Date(bookmark.createdAt)] builds;
    [modifiedAt] is [None] when the field is null or empty, and otherwise the
    [Date] built from it. *)
Record HoarderBookmark : Type := mkBookmark {
  id : jsstring;
  createdAt : JSDate;
  modifiedAt : option JSDate;
  title : nullable jsstring;
  isArchived : bool;
  favourited : bool;
  note : nullable jsstring;
  summary : nullable jsstring;
  tags : list HoarderTag;
  content : HoarderBookmarkContent;
  assets : list (jsstring * jsstring)
}.

Inductive HighlightColor : Type := yellow | red | green | blue.

Record HoarderHighlight : Type := mkHighlight {
  highlightId : jsstring;
  highlightBookmarkId : jsstring;
  startOffset : Z;
  endOffset : Z;
  color : HighlightColor;
  highlightText : jsstring;
  highlightNote : jsstring;
  userId : jsstring;
  highlightCreatedAt : JSDate
}.

(** ** Title resolver (bookmark-utils.ts) *)

(** What the [URL] constructor of the platform yields: the two components the
    resolver reads.  [None] is the [TypeError] of a string that is no URL. *)
Record ParsedURL : Type := mkURL {
  pathname : jsstring;
  hostname : jsstring
}.

(** [s.replace(/\.[^/.]+$/, empty)]: the leftmost dot that is followed, up to
    the end, by at least one character and by no slash and no dot starts the
    extension that is removed. *)
Fixpoint stripExtension (s : jsstring) : jsstring :=
  match s with
  | [] => []
  | c :: s' =>
      if (c =? dot)%N && negb (isEmpty s')
         && forallb (fun d => negb ((d =? slash)%N || (d =? dot)%N)) s'
      then []
      else c :: stripExtension s'
  end.

(** [s.split("/").pop()] *)
Definition lastSegment (s : jsstring) : jsstring :=
  List.last (splitOn slash s) [].

(** [s.replace(/^www\./, empty)] *)
Definition stripWww (s : jsstring) : jsstring :=
  if startsWith (lit "www.") s then skipn 4 s else s.

Section TitleResolver.
Variable parseURL : jsstring -> option ParsedURL.

Definition extractTitleFromUrl (u : jsstring) : jsstring :=
  match parseURL u with
  | Some parsedUrl =>
      let pathTitle :=
        replaceEach (fun c => (c =? dash)%N || (c =? underscore)%N) (lit " ")
          (stripExtension (lastSegment (pathname parsedUrl))) in
      if negb (isEmpty pathTitle) then pathTitle
      else stripWww (hostname parsedUrl)
  | None => u
  end.

Definition extractTitleFromText (t : jsstring) : jsstring :=
  let firstLine := splitHead nl t in
  if length firstLine <=? 100 then firstLine
  else substring0 97 firstLine ++ lit "...".

(** The last resort: the id and the creation day. *)
Definition fallbackTitle (bookmark : HoarderBookmark) : option jsstring :=
  match isoDay (createdAt bookmark) with
  | Some d => Some (lit "Bookmark-" ++ id bookmark ++ lit "-" ++ d)
  | None => None
  end.

(** [None] is the [RangeError] that the fallback raises on an invalid
    creation date. *)
Definition getBookmarkTitle (bookmark : HoarderBookmark) : option jsstring :=
  if truthy (title bookmark) then Some (orEmpty (title bookmark))
  else
    let c := content bookmark in
    match type c with
    | link =>
        if truthy (contentTitle c) then Some (orEmpty (contentTitle c))
        else if truthy (url c) then Some (extractTitleFromUrl (orEmpty (url c)))
        else fallbackTitle bookmark
    | text =>
        if truthy (contentText c)
        then Some (extractTitleFromText (orEmpty (contentText c)))
        else fallbackTitle bookmark
    | asset =>
        if truthy (fileName c) then Some (stripExtension (orEmpty (fileName c)))
        else if truthy (sourceUrl c)
        then Some (extractTitleFromUrl (orEmpty (sourceUrl c)))
        else fallbackTitle bookmark
    | unknown => fallbackTitle bookmark
    end.
End TitleResolver.

(** ** Document renderer (main.ts, [formatBookmarkAsMarkdown]) *)

(** The settings the modelled code reads. *)
Record HoarderSettings : Type := mkSettings {
  apiKey : jsstring;
  apiEndpoint : jsstring;
  syncHighlights : bool;
  syncNotesToHoarder : bool;
  updateExistingFiles : bool;
  lastSyncTimestamp : Z
}.

(** The outcome of the awaited [processBookmarkAssets]: the embeds to append
    and the header entries of the assets it resolved. *)
Record AssetsFrontmatter : Type := mkAssetsFm {
  fmImage : nullable jsstring;
  fmBanner : nullable jsstring;
  fmScreenshot : nullable jsstring;
  fmFullPageArchive : nullable jsstring;
  fmVideo : nullable jsstring;
  fmAdditional : list jsstring
}.

Record ProcessedAssets : Type := mkAssets {
  assetContent : jsstring;
  assetsFm : option AssetsFrontmatter
}.

(** [s.replace(pat, rep)] with a string pattern: the first occurrence only. *)
Fixpoint replaceFirst (pat rep s : jsstring) : jsstring :=
  match s with
  | [] => if isEmpty pat then rep else []
  | c :: s' =>
      if startsWith pat s then rep ++ skipn (length pat) s
      else c :: replaceFirst pat rep s'
  end.

Definition colorName (c : HighlightColor) : jsstring :=
  match c with
  | yellow => lit "yellow"
  | red => lit "red"
  | green => lit "green"
  | blue => lit "blue"
  end.

(** [highlights.sort((a, b) => a.startOffset - b.startOffset)]: the sort of
    the platform is stable. *)
Fixpoint insertHighlight (h : HoarderHighlight) (l : list HoarderHighlight) :
    list HoarderHighlight :=
  match l with
  | [] => [h]
  | x :: l' =>
      if (startOffset h <=? startOffset x)%Z then h :: l
      else x :: insertHighlight h l'
  end.

Definition sortHighlights (l : list HoarderHighlight) : list HoarderHighlight :=
  fold_right insertHighlight [] l.

(** One header line per resolved asset. *)
Definition assetLine (key : jsstring) (v : nullable jsstring) : list jsstring :=
  if truthy v then [key ++ lit ": " ++ orEmpty v] else [].

Definition renderAssetsYaml (fm : option AssetsFrontmatter) : jsstring :=
  match fm with
  | None => []
  | Some a =>
      let lines :=
        assetLine (lit "image") (fmImage a)
        ++ assetLine (lit "banner") (fmBanner a)
        ++ assetLine (lit "screenshot") (fmScreenshot a)
        ++ assetLine (lit "full_page_archive") (fmFullPageArchive a)
        ++ assetLine (lit "video") (fmVideo a)
        ++ (if 0 <? length (fmAdditional a)
            then lit "additional:"
                 :: List.map (fun l => lit "  - " ++ l) (fmAdditional a)
            else []) in
      join (lit "\n") lines ++ lit "\n"
  end.

(** The url and the descriptive text of a bookmark, by content type. *)
Definition bookmarkUrl (bookmark : HoarderBookmark) : nullable jsstring :=
  match type (content bookmark) with
  | link => url (content bookmark)
  | _ => sourceUrl (content bookmark)
  end.

Definition bookmarkDescription (bookmark : HoarderBookmark) :
    nullable jsstring :=
  match type (content bookmark) with
  | link => description (content bookmark)
  | _ => contentText (content bookmark)
  end.

Section Renderer.
(** [date.toLocaleDateString("en-US", ...)]: the long date in the time zone
    of the machine; it never throws. *)
Variable toLocaleDateString : JSDate -> jsstring.
Variable settings : HoarderSettings.

(** The header block and the title heading; [None] when a date is invalid. *)
Definition renderHeader (bookmark : HoarderBookmark) (docTitle : jsstring)
    (processed : ProcessedAssets) : option jsstring :=
  match toISOString (createdAt bookmark) with
  | None => None
  | Some created =>
      let modifiedLine :=
        match modifiedAt bookmark with
        | None => Some []
        | Some m =>
            match toISOString m with
            | Some iso => Some (lit "modified: " ++ iso ++ lit "\n")
            | None => None
            end
        end in
      match modifiedLine with
      | None => None
      | Some modified =>
          Some (lit "---\nbookmark_id: " ++ [dquote] ++ id bookmark
                ++ [dquote]
                ++ lit "\nurl: " ++ escapeYaml (bookmarkUrl bookmark)
                ++ lit "\ntitle: " ++ escapeYaml (Val docTitle)
                ++ lit "\ndate: " ++ created ++ lit "\n"
                ++ modified
                ++ lit "tags:\n  - "
                ++ join (lit "\n  - ")
                     (List.map (fun t => escapeTag (name t)) (tags bookmark))
                ++ lit "\nnote: " ++ escapeYaml (note bookmark)
                ++ lit "\noriginal_note: " ++ escapeYaml (note bookmark)
                ++ lit "\nsummary: " ++ escapeYaml (summary bookmark)
                ++ lit "\n" ++ renderAssetsYaml (assetsFm processed)
                ++ lit "\n---\n\n# " ++ docTitle ++ lit "\n")
      end
  end.

Definition renderHighlightNote (noteLines : list jsstring) : jsstring :=
  match noteLines with
  | [] => []
  | first :: others =>
      lit "> *Note: " ++ first ++ lit "*\n"
      ++ concat (List.map (fun l => lit "> *" ++ l ++ lit "*\n") others)
  end.

Definition renderHighlight (highlight : HoarderHighlight) : jsstring :=
  lit "> [!karakeep-" ++ colorName (color highlight) ++ lit "] "
  ++ toLocaleDateString (highlightCreatedAt highlight) ++ lit "\n"
  ++ concat (List.map (fun line => lit "> " ++ line ++ lit "\n")
               (splitOn nl (highlightText highlight)))
  ++ (if negb (isEmpty (highlightNote highlight))
         && negb (isEmpty (trim (highlightNote highlight)))
      then lit ">\n"
           ++ renderHighlightNote (splitOn nl (highlightNote highlight))
      else [])
  ++ lit "\n".

Definition renderHighlights (highlights : option (list HoarderHighlight)) :
    jsstring :=
  match highlights with
  | Some hs =>
      if (0 <? length hs) && syncHighlights settings
      then lit "\n## Highlights\n\n"
           ++ concat (List.map renderHighlight (sortHighlights hs))
      else []
  | None => []
  end.

(** The value of [content] just before the Notes section is appended. *)
Definition contentBeforeNotes (bookmark : HoarderBookmark)
    (docTitle : jsstring) (highlights : option (list HoarderHighlight))
    (processed : ProcessedAssets) : option jsstring :=
  match renderHeader bookmark docTitle processed with
  | None => None
  | Some header =>
      Some (header ++ assetContent processed
            ++ (if truthy (summary bookmark)
                then lit "\n## Summary\n\n" ++ orEmpty (summary bookmark)
                     ++ lit "\n"
                else [])
            ++ (if truthy (bookmarkDescription bookmark)
                then lit "\n## Description\n\n"
                     ++ orEmpty (bookmarkDescription bookmark) ++ lit "\n"
                else [])
            ++ renderHighlights highlights)
  end.

Definition notesSection (bookmark : HoarderBookmark) : jsstring :=
  lit "\n## Notes\n\n" ++ orEmpty (note bookmark) ++ lit "\n".

Definition isAsset (ty : ContentType) : bool :=
  match ty with asset => true | _ => false end.

Definition linksSection (bookmark : HoarderBookmark) : jsstring :=
  (if truthy (bookmarkUrl bookmark) && negb (isAsset (type (content bookmark)))
   then lit "\n[Visit Link]("
        ++ escapeMarkdownPath (orEmpty (bookmarkUrl bookmark)) ++ lit ")\n"
   else [])
  ++ lit "\n[View in Hoarder]("
  ++ escapeMarkdownPath
       (replaceFirst (lit "/api/v1") (lit "/dashboard/preview")
          (apiEndpoint settings) ++ lit "/" ++ id bookmark)
  ++ lit ")".

Definition formatBookmarkAsMarkdown (bookmark : HoarderBookmark)
    (docTitle : jsstring) (highlights : option (list HoarderHighlight))
    (processed : ProcessedAssets) : option jsstring :=
  match contentBeforeNotes bookmark docTitle highlights processed with
  | None => None
  | Some before =>
      Some (before ++ notesSection bookmark ++ linksSection bookmark)
  end.
End Renderer.

(** ** Notes extractor (markdown-utils) *)

(** The text that follows the first occurrence of [marker] in [s]. *)
Fixpoint afterFirst (marker s : jsstring) : option jsstring :=
  match s with
  | [] => if isEmpty marker then Some [] else None
  | _ :: s' =>
      if startsWith marker s then Some (skipn (length marker) s)
      else afterFirst marker s'
  end.

(** The lookahead of the pattern: a line feed followed by a section header
    or by a link, or the end of the text. *)
Definition atBoundary (s : jsstring) : bool :=
  startsWith (lit "\n##") s || startsWith (lit "\n[") s || isEmpty s.

(** The lazy capture: the shortest prefix that a boundary follows. *)
Fixpoint captureUntilBoundary (s : jsstring) : jsstring :=
  match s with
  | [] => []
  | c :: s' => if atBoundary s then [] else c :: captureUntilBoundary s'
  end.

(** [None] is [null]: no Notes header in the text. *)
Definition extractNotesSection (content : jsstring) : option jsstring :=
  match afterFirst (lit "## Notes\n\n") content with
  | Some rest => Some (trim (captureUntilBoundary rest))
  | None => None
  end.

(** Some line of [s] begins a section header or a link. *)
Definition beginsHeaderOrLink (s : jsstring) : bool :=
  startsWith (lit "##") s || startsWith (lit "[") s.

Fixpoint laterLineBegins (s : jsstring) : bool :=
  match s with
  | [] => false
  | c :: s' => ((c =? nl)%N && beginsHeaderOrLink s') || laterLineBegins s'
  end.

Definition hasHeaderOrLinkLine (s : jsstring) : bool :=
  beginsHeaderOrLink s || laterLineBegins s.

(** [marker] occurs in [s]. *)
Definition occurs (marker s : jsstring) : bool :=
  match afterFirst marker s with Some _ => true | None => false end.

(** ** The guard of the sync pass (main.ts, [syncBookmarks])

    The plugin object is threaded as an explicit state, and what a call does
    to the outside is recorded as a trace of effects. *)

Record PluginState : Type := mkPlugin {
  settings : HoarderSettings;
  isSyncing : bool;
  skippedFiles : nat;
  lastSyncedNotes : nullable jsstring
}.

Record SyncResult : Type := mkSyncResult {
  success : bool;
  message : jsstring
}.

Inductive Effect : Type :=
| ConsoleLog : jsstring -> Effect
| ConsoleError : jsstring -> Effect
| EventTrigger : jsstring -> bool -> Effect
| RemoteRequest : jsstring -> Effect
| FileOperation : jsstring -> Effect.

(** The effects the single-flight guard must prevent. *)
Definition isRemoteOrFile (e : Effect) : bool :=
  match e with
  | RemoteRequest _ | FileOperation _ => true
  | _ => false
  end.

Inductive PassOutcome : Type :=
| Completed : SyncResult -> PassOutcome
| Threw : jsstring -> PassOutcome.

Definition boolText (b : bool) : jsstring :=
  if b then lit "true" else lit "false".

Definition setSyncing (value : bool) (st : PluginState) :
    PluginState * list Effect :=
  ({| settings := settings st; isSyncing := value;
      skippedFiles := skippedFiles st;
      lastSyncedNotes := lastSyncedNotes st |},
   [EventTrigger (lit "sync-state-change") value]).

Definition resetSkipped (st : PluginState) : PluginState :=
  {| settings := settings st; isSyncing := isSyncing st; skippedFiles := 0;
     lastSyncedNotes := lastSyncedNotes st |}.

Section SyncPass.
(** The body of the [try] block: the fetches, the file operations and the
    summary, or the exception that escapes them. *)
Variable runPass : PluginState -> PassOutcome * PluginState * list Effect.

Definition syncBookmarks (st : PluginState) :
    SyncResult * PluginState * list Effect :=
  if isSyncing st then
    ({| success := false; message := lit "Sync already in progress" |}, st,
     [ConsoleLog (lit "[Hoarder] Sync already in progress")])
  else if isEmpty (apiKey (settings st)) then
    ({| success := false; message := lit "Hoarder API key not configured" |},
     st, [ConsoleLog (lit "[Hoarder] API key not configured")])
  else
    let started :=
      [ConsoleLog (lit "[Hoarder] Starting sync...");
       ConsoleLog (lit "[Hoarder] Settings: syncNotesToHoarder="
                   ++ boolText (syncNotesToHoarder (settings st))
                   ++ lit ", updateExistingFiles="
                   ++ boolText (updateExistingFiles (settings st)))] in
    let '(st1, e1) := setSyncing true st in
    let st2 := resetSkipped st1 in
    let '(outcome, st3, e2) := runPass st2 in
    let '(result, e3) :=
      match outcome with
      | Completed r => (r, [])
      | Threw msg =>
          ({| success := false; message := lit "Error syncing: " ++ msg |},
           [ConsoleError (lit "Error syncing bookmarks:")])
      end in
    let '(st4, e4) := setSyncing false st3 in
    (result, resetSkipped st4, started ++ e1 ++ e2 ++ e3 ++ e4).
End SyncPass.

(** ** Auxiliary notions of the proofs *)

(** A sanitized tag: made of tag characters only, not empty, and holding at
    least one letter. *)
Definition wellFormedTag (s : jsstring) : Prop :=
  Forall (fun c => isTagChar c = true) s /\ s <> []
  /\ existsb isLetter s = true.

(** The characters of a date are digits and signs, so none is the [T] that
    separates the day from the time. *)
Definition isDateChar (c : N) : bool := negb (c =? 84)%N.

(** Turns the boolean tests on code units into linear arithmetic. *)
Ltac to_arith :=
  unfold isTagChar, isDigitOrSep, isWhiteSpace in *;
  unfold isLetter, isDigit in *;
  unfold inRange, underscore, dash, slash in *;
  rewrite ?orb_true_iff, ?andb_true_iff, ?orb_false_iff, ?andb_false_iff,
    ?N.leb_le, ?N.leb_gt, ?N.eqb_eq, ?N.eqb_neq in *.

(** ** Sample data *)

Module Sample.
Definition day1 : JSDate := UTC (mkDate 2024 1 15 10 30 0 0).

Definition pluginSettings : HoarderSettings :=
  {| apiKey := lit "secret";
     apiEndpoint := lit "https://api.hoarder.app/api/v1";
     syncHighlights := true; syncNotesToHoarder := true;
     updateExistingFiles := false; lastSyncTimestamp := 1700000000000 |}.

(** A stand-in for the long date of the machine's locale. *)
Definition longDate (d : JSDate) : jsstring := lit "January 15, 2024".

Definition noAssets : ProcessedAssets :=
  {| assetContent := []; assetsFm := None |}.

(** A text bookmark without a title. *)
Definition textBookmark (t : jsstring) (n : nullable jsstring) :
    HoarderBookmark :=
  {| id := lit "b1"; createdAt := day1; modifiedAt := None; title := Null;
     isArchived := false; favourited := false; note := n; summary := Null;
     tags := [];
     content :=
       {| type := text; url := Undefined; contentTitle := Undefined;
          description := Undefined; imageUrl := Undefined;
          imageAssetId := Undefined; screenshotAssetId := Undefined;
          fullPageArchiveAssetId := Undefined; videoAssetId := Undefined;
          favicon := Undefined; htmlContent := Undefined;
          crawledAt := Undefined; contentText := Val t;
          sourceUrl := Undefined; assetType := None; assetId := Undefined;
          fileName := Undefined |};
     assets := [] |}.

Definition linkContent : HoarderBookmarkContent :=
  {| type := link; url := Val (lit "https://example.com/my-article.html");
     contentTitle := Undefined; description := Undefined;
     imageUrl := Undefined; imageAssetId := Undefined;
     screenshotAssetId := Undefined; fullPageArchiveAssetId := Undefined;
     videoAssetId := Undefined; favicon := Undefined;
     htmlContent := Undefined; crawledAt := Undefined;
     contentText := Undefined; sourceUrl := Undefined; assetType := None;
     assetId := Undefined; fileName := Undefined |}.

(** The link bookmark of the specification's scenario. *)
Definition article : HoarderBookmark :=
  {| id := lit "b1"; createdAt := day1; modifiedAt := None; title := Null;
     isArchived := false; favourited := false; note := Null; summary := Null;
     tags := []; content := linkContent; assets := [] |}.

(** The same link with a summary, a description, two tags and a note of two
    lines. *)
Definition annotated : HoarderBookmark :=
  {| id := lit "b2"; createdAt := day1; modifiedAt := Some day1;
     title := Val (lit "My Article"); isArchived := false;
     favourited := true;
     note := Val (lit "  first line: a [link](x)\n- second ## line \n");
     summary := Val (lit "A summary.\n\n## Details\n\nMore.");
     tags :=
       [ {| tagId := lit "t1"; name := lit "read later"; attachedBy := human |};
         {| tagId := lit "t2"; name := lit "ai"; attachedBy := ai |} ];
     content :=
       {| type := link; url := Val (lit "https://example.com/my article");
          contentTitle := Undefined;
          description := Val (lit "About the article");
          imageUrl := Undefined; imageAssetId := Undefined;
          screenshotAssetId := Undefined;
          fullPageArchiveAssetId := Undefined; videoAssetId := Undefined;
          favicon := Undefined; htmlContent := Undefined;
          crawledAt := Undefined; contentText := Undefined;
          sourceUrl := Undefined; assetType := None; assetId := Undefined;
          fileName := Undefined |};
     assets := [] |}.

Definition highlight1 : HoarderHighlight :=
  {| highlightId := lit "h1"; highlightBookmarkId := lit "b2";
     startOffset := 10; endOffset := 20; color := yellow;
     highlightText := lit "quoted\ntext";
     highlightNote := lit "## Notes"; userId := lit "u1";
     highlightCreatedAt := day1 |}.

Definition busyPlugin : PluginState :=
  {| settings := pluginSettings; isSyncing := true; skippedFiles := 3;
     lastSyncedNotes := Null |}.

Definition idlePlugin : PluginState :=
  {| settings := pluginSettings; isSyncing := false; skippedFiles := 0;
     lastSyncedNotes := Null |}.

(** A pass that fetches and writes at once. *)
Definition eagerPass (st : PluginState) :
    PassOutcome * PluginState * list Effect :=
  (Completed
     {| success := true; message := lit "Successfully synced 1 bookmark" |},
   st, [RemoteRequest (lit "getBookmarks"); FileOperation (lit "create")]).
End Sample.

(** ** The id sets of the sync pass (main.ts, [syncBookmarks])

    [activeBookmarkIds] is built from the listing restricted to active
    bookmarks, [archivedBookmarkIds] from the unrestricted listing. *)

Definition activeIdsOf (activeBookmarks : list HoarderBookmark) :
    gset jsstring :=
  list_to_set (List.map id activeBookmarks).

Definition archivedIdsOf (activeBookmarkIds : gset jsstring)
    (allBookmarks : list HoarderBookmark) : gset jsstring :=
  list_to_set
    (List.map id
       (List.filter
          (fun b => isArchived b
                    && negb (bool_decide (id b ∈ activeBookmarkIds)))
          allBookmarks)).

(** A character that is safe in a file name: not one of the characters the
    builder replaces, and no white space. *)
Definition isSafeNameChar (c : N) : bool :=
  negb (isFsHostile c) && negb (isWhiteSpace c).

(** Every line feed of [s] is followed by two spaces. *)
Fixpoint linesIndented (s : jsstring) : bool :=
  match s with
  | [] => true
  | c :: s' =>
      (if (c =? nl)%N then startsWith [space; space] s' else true)
      && linesIndented s'
  end.

(** ** Highlights by bookmark (main.ts, [syncBookmarks])

    The bulk listing of highlights is grouped by bookmark id in a [Map] of
    arrays, and the ids met are collected in a [Set].  An array of the map
    is extended in place; the model stores the extended array back. *)

Definition groupStep
    (acc : gmap jsstring (list HoarderHighlight) * gset jsstring)
    (highlight : HoarderHighlight) :
    gmap jsstring (list HoarderHighlight) * gset jsstring :=
  let key := highlightBookmarkId highlight in
  let byId :=
    if bool_decide (is_Some (fst acc !! key)) then fst acc
    else <[key := []]> (fst acc) in
  (<[key := default [] (byId !! key) ++ [highlight]]> byId,
   {[key]} ∪ snd acc).

Definition groupHighlights (allHighlights : list HoarderHighlight) :
    gmap jsstring (list HoarderHighlight) * gset jsstring :=
  fold_left groupStep allHighlights (∅, ∅).

(** [highlightsByBookmarkId.get(id) || []] *)
Definition highlightsOf (byId : gmap jsstring (list HoarderHighlight))
    (bookmarkId : jsstring) : list HoarderHighlight :=
  default [] (byId !! bookmarkId).

(** ** Tagging a document (main.ts, [addDeletionTag])

    The [tags] entry of a header may be missing, one string, or a list. *)

Inductive FrontmatterTags : Type :=
| TagsMissing : FrontmatterTags
| TagsString : jsstring -> FrontmatterTags
| TagsArray : list jsstring -> FrontmatterTags.

(** The entry as an array: a missing or empty entry is the empty array, a
    string is an array of one. *)
Definition tagsAsArray (t : FrontmatterTags) : list jsstring :=
  match t with
  | TagsMissing => []
  | TagsString [] => []
  | TagsString s => [s]
  | TagsArray l => l
  end.

(** [None] is the error thrown when no tag is configured. *)
Definition addDeletionTag (newTag : jsstring) (t : FrontmatterTags) :
    option (list jsstring) :=
  if isEmpty newTag then None
  else
    let current := tagsAsArray t in
    Some (if includes newTag current then current else current ++ [newTag]).

(** ** Moving a document to an archive folder (main.ts,
    [moveToArchiveFolder])

    The vault is the set of the paths that exist.  The search for a free
    name is a loop without a bound in the source; the model counts its turns
    down from [fuel]. *)

(** The decimal digits of a counter, as the template literal prints it. *)
Fixpoint digitsOf (d : Decimal.uint) : jsstring :=
  match d with
  | Decimal.Nil => []
  | Decimal.D0 d' => 48%N :: digitsOf d'
  | Decimal.D1 d' => 49%N :: digitsOf d'
  | Decimal.D2 d' => 50%N :: digitsOf d'
  | Decimal.D3 d' => 51%N :: digitsOf d'
  | Decimal.D4 d' => 52%N :: digitsOf d'
  | Decimal.D5 d' => 53%N :: digitsOf d'
  | Decimal.D6 d' => 54%N :: digitsOf d'
  | Decimal.D7 d' => 55%N :: digitsOf d'
  | Decimal.D8 d' => 56%N :: digitsOf d'
  | Decimal.D9 d' => 57%N :: digitsOf d'
  end.

Definition numberToString (n : nat) : jsstring := digitsOf (Nat.to_uint n).

(** [s.endsWith(suffix)] *)
Definition endsWith (suffix s : jsstring) : bool :=
  startsWith (rev suffix) (rev s).

(** [fileName.replace(/\.md$/, empty)] *)
Definition stripMd (fileName : jsstring) : jsstring :=
  if endsWith (lit ".md") fileName
  then firstn (length fileName - 3) fileName
  else fileName.

(** The name tried at a given value of the counter. *)
Definition numberedPath (archiveFolder fileName : jsstring) (counter : nat) :
    jsstring :=
  archiveFolder ++ lit "/" ++ stripMd fileName ++ lit "-"
  ++ numberToString counter ++ lit ".md".

Fixpoint findFreePath (fuel : nat) (vault : gset jsstring)
    (archiveFolder fileName finalPath : jsstring) (counter : nat) :
    option jsstring :=
  match fuel with
  | 0 => None
  | S fuel' =>
      if bool_decide (finalPath ∈ vault)
      then findFreePath fuel' vault archiveFolder fileName
             (numberedPath archiveFolder fileName counter) (S counter)
      else Some finalPath
  end.

Inductive MoveResult : Type :=
| MoveError : jsstring -> MoveResult
| OutOfFuel : MoveResult
| Moved : jsstring -> gset jsstring -> MoveResult.

(** The file at [filePath], named [fileName], is renamed to the free path;
    the archive folder is created when it is missing. *)
Definition moveToArchiveFolder (fuel : nat) (vault : gset jsstring)
    (filePath fileName archiveFolder : jsstring) : MoveResult :=
  if isEmpty archiveFolder
  then MoveError (lit "Archive folder not configured")
  else
    let vault1 :=
      if bool_decide (archiveFolder ∈ vault) then vault
      else {[archiveFolder]} ∪ vault in
    let newPath := archiveFolder ++ lit "/" ++ fileName in
    match findFreePath fuel vault1 archiveFolder fileName newPath 1 with
    | None => OutOfFuel
    | Some finalPath =>
        Moved finalPath ({[finalPath]} ∪ (vault1 ∖ {[filePath]}))
    end.

(** ** Tag filtering inside the pass (main.ts, [syncBookmarks])

    The loop of the pass filters by tags in line, lowering the case of the
    tags of the bookmark and of the configured lists, and counts what it
    skips and what the include list lets through. *)

Record PassFilter : Type := mkPassFilter {
  proceeds : bool;
  excludedByTags : nat;
  includedByTags : nat
}.

Section PassFilter.
(** [s.toLowerCase()] of the platform. *)
Variable toLowerCase : jsstring -> jsstring.

Definition filterInPass (includedTags excludedTags : list jsstring)
    (bookmark : HoarderBookmark) : PassFilter :=
  let bookmarkTags :=
    List.map (fun t => toLowerCase (name t)) (tags bookmark) in
  let hasIncludedTag :=
    some (fun includedTag => includes (toLowerCase includedTag) bookmarkTags)
      includedTags in
  if (0 <? length includedTags) && negb hasIncludedTag then
    {| proceeds := false; excludedByTags := 1; includedByTags := 0 |}
  else
    let counted := if 0 <? length includedTags then 1 else 0 in
    if negb (favourited bookmark) && (0 <? length excludedTags)
       && some (fun excludedTag =>
                  includes (toLowerCase excludedTag) bookmarkTags)
            excludedTags
    then {| proceeds := false; excludedByTags := 1; includedByTags := counted |}
    else {| proceeds := true; excludedByTags := 0; includedByTags := counted |}.
End PassFilter.

(** ** Reconciling an existing document (main.ts, [syncBookmarks])

    The branch of the loop taken when the file of a bookmark exists.  What
    the file system and the remote service answer is given: the content read
    when the notes are extracted, the [original_note] of the header as the
    metadata cache reports it, the content read before the comparison, and
    whether the upstream update succeeds. *)

Record ExistingFile : Type := mkExistingFile {
  contentAtExtract : jsstring;
  metadataOriginalNote : option jsstring;
  contentAtCompare : jsstring
}.

Record Reconciled : Type := mkReconciled {
  upstream : option jsstring;
  bookmarkAfter : HoarderBookmark;
  updatedInHoarder : nat;
  lastSyncedAfter : option jsstring;
  originalNoteInit : option jsstring;
  fileWritten : option jsstring;
  totalBookmarks : nat;
  skippedCount : nat
}.

(** [bookmark.note = currentNotes] *)
Definition setNote (bookmark : HoarderBookmark) (n : jsstring) :
    HoarderBookmark :=
  {| id := id bookmark; createdAt := createdAt bookmark;
     modifiedAt := modifiedAt bookmark; title := title bookmark;
     isArchived := isArchived bookmark; favourited := favourited bookmark;
     note := Val n; summary := summary bookmark; tags := tags bookmark;
     content := content bookmark; assets := assets bookmark |}.

(** The outcome of the notes step: the note handed upstream, if any, the
    bookmark afterwards, the count of upstream updates, the notes remembered
    as last synced, and the [original_note] written to the header. *)
Record NotesStep : Type := mkNotesStep {
  stepUpstream : option jsstring;
  stepBookmark : HoarderBookmark;
  stepUpdated : nat;
  stepLastSynced : option jsstring;
  stepOriginalInit : option jsstring
}.

Definition noUpstream (bookmark : HoarderBookmark) : NotesStep :=
  {| stepUpstream := None; stepBookmark := bookmark; stepUpdated := 0;
     stepLastSynced := None; stepOriginalInit := None |}.

(** The call of [updateBookmarkInHoarder] and what follows it. *)
Definition pushNotes (updateSucceeds initOriginal : bool)
    (bookmark : HoarderBookmark) (currentNotes : jsstring) : NotesStep :=
  if updateSucceeds then
    {| stepUpstream := Some currentNotes;
       stepBookmark := setNote bookmark currentNotes;
       stepUpdated := 1;
       stepLastSynced := Some currentNotes;
       stepOriginalInit := if initOriginal then Some currentNotes else None |}
  else
    {| stepUpstream := Some currentNotes; stepBookmark := bookmark;
       stepUpdated := 0; stepLastSynced := None; stepOriginalInit := None |}.

Definition reconcileNotes (updateSucceeds : bool) (bookmark : HoarderBookmark)
    (file : ExistingFile) : NotesStep :=
  let currentNotes := extractNotesSection (contentAtExtract file) in
  let originalNotes := metadataOriginalNote file in
  let remoteNotes := orEmpty (note bookmark) in
  match originalNotes, currentNotes with
  | None, Some current =>
      if bool_decide (current = remoteNotes) then noUpstream bookmark
      else pushNotes updateSucceeds true bookmark current
  | Some original, Some current =>
      if negb (bool_decide (current = original))
         && negb (bool_decide (current = remoteNotes))
      then pushNotes updateSucceeds false bookmark current
      else noUpstream bookmark
  | _, None => noUpstream bookmark
  end.

Section Reconcile.
Variable toLocaleDateString : JSDate -> jsstring.
Variable st : HoarderSettings.

(** [None] is an exception of the renderer, which ends the pass. *)
Definition reconcileExisting (updateSucceeds : bool)
    (bookmark : HoarderBookmark) (docTitle : jsstring)
    (highlights : list HoarderHighlight) (processed : ProcessedAssets)
    (file : ExistingFile) : option Reconciled :=
  if negb (updateExistingFiles st) then
    Some {| upstream := None; bookmarkAfter := bookmark;
            updatedInHoarder := 0; lastSyncedAfter := None;
            originalNoteInit := None; fileWritten := None;
            totalBookmarks := 0; skippedCount := 1 |}
  else
    let step :=
      if syncNotesToHoarder st
      then reconcileNotes updateSucceeds bookmark file
      else noUpstream bookmark in
    match formatBookmarkAsMarkdown toLocaleDateString st (stepBookmark step)
            docTitle (Some highlights) processed with
    | None => None
    | Some newContent =>
        let changed :=
          negb (bool_decide (contentAtCompare file = newContent)) in
        Some {| upstream := stepUpstream step;
                bookmarkAfter := stepBookmark step;
                updatedInHoarder := stepUpdated step;
                lastSyncedAfter := stepLastSynced step;
                originalNoteInit := stepOriginalInit step;
                fileWritten := if changed then Some newContent else None;
                totalBookmarks := if changed then 1 else 0;
                skippedCount := if changed then 0 else 1 |}
    end.
End Reconcile.

(** ** Sample documents *)

Module Fixture.
(** A link bookmark with a trimmed note of two lines. *)
Definition noted (n : jsstring) : HoarderBookmark :=
  {| id := lit "b3"; createdAt := Sample.day1; modifiedAt := None;
     title := Val (lit "An Article"); isArchived := false;
     favourited := false; note := Val n;
     summary := Val (lit "A summary.");
     tags := [ {| tagId := lit "t1"; name := lit "Read Later";
                  attachedBy := human |} ];
     content := Sample.linkContent; assets := [] |}.

Definition remoteNote : jsstring := lit "remote line\n- second".
Definition localNote : jsstring := lit "local edit\n- second".

(** What the renderer writes for the bookmark with the remote note, and with
    the local note. *)
Definition remoteDoc : jsstring :=
  Eval vm_compute in
    default []
      (formatBookmarkAsMarkdown Sample.longDate Sample.pluginSettings
         (noted remoteNote) (lit "An Article") (Some [Sample.highlight1])
         Sample.noAssets).

Definition localDoc : jsstring :=
  Eval vm_compute in
    default []
      (formatBookmarkAsMarkdown Sample.longDate Sample.pluginSettings
         (noted localNote) (lit "An Article") (Some [Sample.highlight1])
         Sample.noAssets).

Definition updating : HoarderSettings :=
  {| apiKey := lit "secret";
     apiEndpoint := lit "https://api.hoarder.app/api/v1";
     syncHighlights := true; syncNotesToHoarder := true;
     updateExistingFiles := true; lastSyncTimestamp := 0 |}.

(** The file as the last pass left it, and the file after a local edit of
    its notes. *)
Definition untouched : ExistingFile :=
  {| contentAtExtract := remoteDoc; metadataOriginalNote := Some remoteNote;
     contentAtCompare := remoteDoc |}.

Definition edited : ExistingFile :=
  {| contentAtExtract := localDoc; metadataOriginalNote := Some remoteNote;
     contentAtCompare := localDoc |}.
End Fixture.

(** * Properties *)

(** ** Deletion and archival classifier *)

Lemma instructionsFor_not_active (active archivedIds : gset jsstring)
    (s : DeletionSettings) (x : jsstring) :
  Forall (fun i => bookmarkId i ∉ active)
    (instructionsFor active archivedIds s x).
Proof.
  unfold instructionsFor.
  destruct (decide (x ∈ active)) as [Hin | Hout].
  - rewrite (bool_decide_eq_true_2 _ Hin). simpl. constructor.
  - rewrite (bool_decide_eq_false_2 _ Hout). simpl.
    repeat match goal with
           | |- context [if ?b then _ else _] => destruct b
           end; repeat constructor; simpl; assumption.
Qed.

(** C2. Whatever the archived set and the settings are, no emitted
    instruction names an id of the active set: a local id that is active
    remotely gets no instruction. *)
Theorem determineDeletionActions_skips_active (localBookmarkIds : list jsstring)
    (activeBookmarkIds archivedBookmarkIds : gset jsstring)
    (s : DeletionSettings) :
  Forall (fun i => bookmarkId i ∉ activeBookmarkIds)
    (determineDeletionActions localBookmarkIds activeBookmarkIds
       archivedBookmarkIds s).
Proof.
  unfold determineDeletionActions.
  destruct (negb (syncDeletions s) && negb (handleArchivedBookmarks s)).
  - constructor.
  - induction localBookmarkIds as [| x l IH]; simpl.
    + constructor.
    + apply Forall_app. split; [apply instructionsFor_not_active | exact IH].
Qed.

(** The scenario of the specification, and an id that is both active and
    archived next to it. *)
Example determineDeletionActions_scenario :
  let s :=
    {| syncDeletions := true; deletionAction := delete;
       handleArchivedBookmarks := true; archivedBookmarkAction := tag |} in
  determineDeletionActions [lit "x"] ∅ ∅ s
  = [ {| bookmarkId := lit "x"; action := delete; instrReason := deleted |} ]
  /\ determineDeletionActions [lit "a"; lit "x"; lit "z"]
       {[ lit "a" ]} {[ lit "a"; lit "z" ]} s
     = [ {| bookmarkId := lit "x"; action := delete; instrReason := deleted |};
         {| bookmarkId := lit "z"; action := tag; instrReason := archived |} ].
Proof. split; vm_compute; reflexivity. Qed.

Lemma countOne_total (r : DeletionResults) (i : FileHandlingInstruction) :
  totalCounted (countOne r i)
  = totalCounted r + (if isIgnoredDeletion i then 0 else 1).
Proof.
  unfold countOne, isIgnoredDeletion, totalCounted.
  destruct (instrReason i), (action i); simpl; lia.
Qed.

Lemma fold_countOne_total (l : list FileHandlingInstruction) :
  forall r,
    totalCounted (fold_left countOne l r)
    + length (List.filter isIgnoredDeletion l)
    = totalCounted r + length l.
Proof.
  induction l as [| i l IH]; intros r; simpl.
  - lia.
  - specialize (IH (countOne r i)). rewrite countOne_total in IH.
    destruct (isIgnoredDeletion i); simpl; lia.
Qed.

(** C4, as the code has it. The four counters add up to the number of
    instructions that are not an ignored deletion: an instruction with
    reason [deleted] and action [ignore] falls through the switch and is
    counted in no bucket. *)
Theorem countDeletionResults_total
    (instructions : list FileHandlingInstruction) :
  totalCounted (countDeletionResults instructions)
  + length (List.filter isIgnoredDeletion instructions)
  = length instructions.
Proof.
  unfold countDeletionResults. rewrite fold_countOne_total. reflexivity.
Qed.

(** C4, as stated, fails: one ignored deletion is an input of length one
    whose counters add up to zero. *)
Lemma countDeletionResults_drops_ignored :
  totalCounted
    (countDeletionResults
       [ {| bookmarkId := lit "x"; action := ignore; instrReason := deleted |} ])
  = 0
  /\ length
       [ {| bookmarkId := lit "x"; action := ignore; instrReason := deleted |} ]
     = 1.
Proof. split; reflexivity. Qed.

(** The classifier never emits an ignored deletion, so on its own output the
    counters do add up to the number of instructions. *)
Lemma instructionsFor_no_ignored (active archivedIds : gset jsstring)
    (s : DeletionSettings) (x : jsstring) :
  List.filter isIgnoredDeletion (instructionsFor active archivedIds s x) = [].
Proof.
  unfold instructionsFor.
  destruct (bool_decide (x ∈ active)), (bool_decide (x ∈ archivedIds));
    simpl; try reflexivity.
  - destruct (handleArchivedBookmarks s); simpl; try reflexivity.
    destruct (archivedBookmarkAction s); reflexivity.
  - destruct (syncDeletions s); simpl; try reflexivity.
    destruct (deletionAction s); reflexivity.
Qed.

Lemma countDeletionResults_of_classifier (localBookmarkIds : list jsstring)
    (active archivedIds : gset jsstring) (s : DeletionSettings) :
  totalCounted
    (countDeletionResults
       (determineDeletionActions localBookmarkIds active archivedIds s))
  = length (determineDeletionActions localBookmarkIds active archivedIds s).
Proof.
  assert (H : List.filter isIgnoredDeletion
                (determineDeletionActions localBookmarkIds active archivedIds s)
              = []).
  { unfold determineDeletionActions.
    destruct (negb (syncDeletions s) && negb (handleArchivedBookmarks s));
      [reflexivity |].
    induction localBookmarkIds as [| x l IH]; simpl; [reflexivity |].
    rewrite List.filter_app, instructionsFor_no_ignored, IH. reflexivity. }
  pose proof (fold_countOne_total
                (determineDeletionActions localBookmarkIds active archivedIds s)
                {| deletedCount := 0; archivedCount := 0; taggedCount := 0;
                   archivedHandled := 0 |}) as Htotal.
  fold (countDeletionResults
          (determineDeletionActions localBookmarkIds active archivedIds s))
    in Htotal.
  rewrite H in Htotal. simpl in Htotal. unfold totalCounted in *. simpl in *.
  lia.
Qed.

(** ** Tag filter *)

Lemma some_includes_false (bookmarkTags wanted : list jsstring) :
  Forall (fun t => t ∉ wanted) bookmarkTags ->
  some (fun w => includes w bookmarkTags) wanted = false.
Proof.
  intros Hnone. unfold some.
  apply not_true_is_false. intros Hex.
  apply existsb_exists in Hex. destruct Hex as [w [Hw Hin]].
  unfold includes in Hin. apply bool_decide_eq_true_1 in Hin.
  rewrite Forall_forall in Hnone.
  apply (Hnone w Hin). apply list_elem_of_In. exact Hw.
Qed.

(** C3. With a non-empty include list that no bookmark tag meets, the
    bookmark is excluded for the missing included tag, favorite or not and
    whatever the exclude list holds. *)
Theorem shouldIncludeBookmark_include_first
    (bookmarkTags includedTags excludedTags : list jsstring)
    (isFavorited : bool) :
  includedTags <> [] ->
  Forall (fun t => t ∉ includedTags) bookmarkTags ->
  shouldIncludeBookmark bookmarkTags includedTags excludedTags isFavorited
  = {| include := false; reason := Some missing_included_tag |}.
Proof.
  intros Hne Hnone. unfold shouldIncludeBookmark.
  rewrite (some_includes_false _ _ Hnone).
  destruct includedTags; [congruence | reflexivity].
Qed.

Lemma shouldIncludeBookmark_include_first_witness :
  shouldIncludeBookmark [lit "news"; lit "tech"] [lit "work"]
    [lit "news"] true
  = {| include := false; reason := Some missing_included_tag |}.
Proof.
  apply shouldIncludeBookmark_include_first.
  - discriminate.
  - apply (bool_decide_unpack _). vm_compute. exact I.
Defined.

(** C9. The reason is present exactly on the excluded results, and is then
    one of the two reasons. *)
Theorem shouldIncludeBookmark_reason_iff_excluded
    (bookmarkTags includedTags excludedTags : list jsstring)
    (isFavorited : bool) :
  let r :=
    shouldIncludeBookmark bookmarkTags includedTags excludedTags isFavorited in
  (include r = true /\ reason r = None)
  \/ (include r = false
      /\ (reason r = Some missing_included_tag
          \/ reason r = Some excluded_tag)).
Proof.
  unfold shouldIncludeBookmark.
  repeat match goal with
         | |- context [if ?b then _ else _] => destruct b
         end; simpl; auto.
Qed.

(** ** Tag sanitizer *)

Lemma tagChar_not_whitespace (c : N) :
  isTagChar c = true -> isWhiteSpace c = false.
Proof. intros H. to_arith. repeat split; lia. Qed.

Lemma tagChar_letter_or_sep (c : N) :
  isTagChar c = true -> isDigitOrSep c = false -> isLetter c = true.
Proof. intros H1 H2. to_arith. repeat split; lia. Qed.

Lemma letter_not_digitOrSep (c : N) :
  isLetter c = true -> isDigitOrSep c = false.
Proof. intros H. to_arith. repeat split; lia. Qed.

Lemma letter_not_digit (c : N) : isLetter c = true -> isDigit c = false.
Proof. intros H. to_arith. repeat split; lia. Qed.

Lemma dropWhile_none (p : N -> bool) (s : jsstring) :
  Forall (fun c => p c = false) s -> dropWhile p s = s.
Proof.
  intros H. destruct H as [| c s Hc _]; simpl; [| rewrite Hc]; reflexivity.
Qed.

Lemma trim_none (s : jsstring) :
  Forall (fun c => isWhiteSpace c = false) s -> trim s = s.
Proof.
  intros H. unfold trim. rewrite (dropWhile_none _ s H).
  rewrite dropWhile_none.
  - apply rev_involutive.
  - apply Forall_rev. exact H.
Qed.

Lemma replaceRunsFrom_none (p : N -> bool) (r : jsstring) (s : jsstring) :
  Forall (fun c => p c = false) s ->
  forall inRun, replaceRunsFrom p r inRun s = s.
Proof.
  induction 1 as [| c s Hc _ IH]; intros inRun; simpl.
  - reflexivity.
  - rewrite Hc, IH. reflexivity.
Qed.

Lemma keepOnly_all (p : N -> bool) (s : jsstring) :
  Forall (fun c => p c = true) s -> keepOnly p s = s.
Proof.
  unfold keepOnly. induction 1 as [| c s Hc _ IH]; simpl.
  - reflexivity.
  - rewrite Hc, IH. reflexivity.
Qed.

Lemma keepOnly_Forall (p : N -> bool) (s : jsstring) :
  Forall (fun c => p c = true) (keepOnly p s).
Proof.
  unfold keepOnly. induction s as [| c s IH]; simpl.
  - constructor.
  - destruct (p c) eqn:Hc; [constructor |]; assumption.
Qed.

Lemma forallb_false_witness (p : N -> bool) (s : jsstring) :
  forallb p s = false -> exists c, In c s /\ p c = false.
Proof.
  induction s as [| c s IH]; simpl; [discriminate |].
  destruct (p c) eqn:Hc; simpl.
  - intros H. destruct (IH H) as [d [Hd Hp]]. exists d. auto.
  - intros _. exists c. auto.
Qed.

Lemma existsb_letter_not_all (p : N -> bool) (s : jsstring) :
  (forall c, isLetter c = true -> p c = false) ->
  existsb isLetter s = true -> allOf p s = false.
Proof.
  intros Hp Hex. unfold allOf.
  apply existsb_exists in Hex. destruct Hex as [c [Hin Hc]].
  apply andb_false_iff. right.
  apply not_true_is_false. intros Hall.
  rewrite forallb_forall in Hall. specialize (Hall c Hin).
  rewrite (Hp c Hc) in Hall. discriminate.
Qed.

Lemma prefixed_wellFormed (s : jsstring) :
  Forall (fun c => isTagChar c = true) s -> wellFormedTag (lit "tag-" ++ s).
Proof.
  intros H. change (lit "tag-") with [116; 97; 103; 45]%N.
  repeat split.
  - repeat (constructor; [reflexivity |]). exact H.
  - discriminate.
Qed.

Lemma sanitizeTag_wellFormed (t s : jsstring) :
  sanitizeTag t = Some s -> wellFormedTag s.
Proof.
  unfold sanitizeTag.
  destruct (isEmpty (trim t)); [discriminate |].
  set (f := keepOnly isTagChar _).
  assert (Hf : Forall (fun c => isTagChar c = true) f)
    by apply keepOnly_Forall.
  clearbody f.
  destruct (isEmpty f) eqn:Hempty; [discriminate |].
  destruct (allOf isDigit f) eqn:Hdigits.
  - change (lit "tag-") with [116; 97; 103; 45]%N. simpl app.
    unfold allOf at 1. simpl.
    intros [= <-]. apply (prefixed_wellFormed f Hf).
  - destruct (allOf isDigitOrSep f) eqn:Hseps.
    + intros [= <-]. apply (prefixed_wellFormed f Hf).
    + intros [= <-]. repeat split; [exact Hf | |].
      * intros ->. discriminate.
      * unfold allOf in Hseps. rewrite Hempty in Hseps. simpl in Hseps.
        destruct (forallb_false_witness _ _ Hseps) as [c [Hin Hc]].
        apply existsb_exists. exists c. split; [exact Hin |].
        rewrite Forall_forall in Hf.
        apply tagChar_letter_or_sep; [| exact Hc].
        apply Hf. apply list_elem_of_In. exact Hin.
Qed.

Lemma sanitizeTag_fixes_wellFormed (s : jsstring) :
  wellFormedTag s -> sanitizeTag s = Some s.
Proof.
  intros (Hchars & Hne & Hletter).
  assert (Hws : Forall (fun c => isWhiteSpace c = false) s).
  { eapply Forall_impl; [exact Hchars |]. apply tagChar_not_whitespace. }
  unfold sanitizeTag.
  rewrite (trim_none s Hws).
  destruct s as [| c s']; [congruence |]. simpl isEmpty. cbv iota.
  unfold replaceRuns. rewrite (replaceRunsFrom_none _ _ _ Hws).
  rewrite (keepOnly_all _ _ Hchars). simpl isEmpty. cbv iota.
  rewrite (existsb_letter_not_all isDigit _ letter_not_digit Hletter).
  rewrite (existsb_letter_not_all isDigitOrSep _ letter_not_digitOrSep Hletter).
  reflexivity.
Qed.

(** The batch form keeps well-formed tags only. *)
Lemma sanitizeTags_wellFormed (ts : list jsstring) :
  Forall wellFormedTag (sanitizeTags ts).
Proof.
  unfold sanitizeTags. induction ts as [| t ts IH]; simpl.
  - constructor.
  - destruct (sanitizeTag t) as [s |] eqn:Ht; simpl; [| exact IH].
    constructor; [exact (sanitizeTag_wellFormed t s Ht) | exact IH].
Qed.

(** C5. Sanitizing the result of a successful sanitization gives it back. *)
Theorem sanitizeTag_idempotent (t s : jsstring) :
  sanitizeTag t = Some s -> sanitizeTag s = Some s.
Proof.
  intros H. apply sanitizeTag_fixes_wellFormed.
  exact (sanitizeTag_wellFormed t s H).
Qed.

Lemma sanitizeTag_idempotent_witness :
  sanitizeTag (lit " 2024 / 01 ! ") = Some (lit "tag-2024-/-01-")
  /\ sanitizeTag (lit "tag-2024-/-01-")
     = Some (lit "tag-2024-/-01-").
Proof.
  split; [reflexivity |].
  apply (sanitizeTag_idempotent (lit " 2024 / 01 ! ")). reflexivity.
Defined.

(** ** Filename builder *)

Lemma length_decimal (w : nat) : forall n, length (decimal w n) = w.
Proof.
  induction w as [| w IH]; intros n; simpl.
  - reflexivity.
  - rewrite length_app, IH. simpl. lia.
Qed.

Lemma decimal_dateChars (w : nat) :
  forall n, Forall (fun c => isDateChar c = true) (decimal w n).
Proof.
  induction w as [| w IH]; intros n; simpl.
  - constructor.
  - apply Forall_app. split; [apply IH |].
    constructor; [| constructor].
    unfold isDateChar. apply negb_true_iff, N.eqb_neq.
    pose proof (N.mod_lt n 10). lia.
Qed.

Lemma isoYear_dateChars (y : Z) :
  Forall (fun c => isDateChar c = true) (isoYear y).
Proof.
  unfold isoYear.
  destruct ((0 <=? y)%Z && (y <=? 9999)%Z).
  - apply decimal_dateChars.
  - apply Forall_app. split; [| apply decimal_dateChars].
    destruct (y <? 0)%Z; repeat constructor.
Qed.

Lemma isoDate_dateChars (d : DateFields) :
  Forall (fun c => isDateChar c = true) (isoDate d).
Proof.
  unfold isoDate.
  apply Forall_app. split; [apply isoYear_dateChars |].
  apply Forall_app. split; [repeat constructor |].
  apply Forall_app. split; [apply decimal_dateChars |].
  apply Forall_app. split; [repeat constructor | apply decimal_dateChars].
Qed.

Lemma takeWhile_app_stop (p : N -> bool) (a : jsstring) (x : N)
    (b : jsstring) :
  Forall (fun c => p c = true) a -> p x = false ->
  takeWhile p (a ++ x :: b) = a.
Proof.
  intros Ha Hx. induction Ha as [| c a Hc _ IH]; simpl.
  - rewrite Hx. reflexivity.
  - rewrite Hc, IH. reflexivity.
Qed.

(** The day of a valid date is its ISO date. *)
Lemma isoDay_UTC (d : DateFields) : isoDay (UTC d) = Some (isoDate d).
Proof.
  unfold isoDay, toISOString, splitHead. f_equal.
  change (lit "T") with [84%N]. simpl app.
  apply (takeWhile_app_stop isDateChar).
  - apply isoDate_dateChars.
  - reflexivity.
Qed.

Lemma length_isoDate_four_digits (d : DateFields) :
  (0 <= year d <= 9999)%Z ->
  isoDate d
  = decimal 4 (Z.to_N (year d)) ++ lit "-" ++ decimal 2 (month d) ++ lit "-"
    ++ decimal 2 (day d)
  /\ length (isoDate d) = 10.
Proof.
  intros Hy. unfold isoDate, isoYear.
  replace ((0 <=? year d)%Z && (year d <=? 9999)%Z) with true
    by (symmetry; apply andb_true_iff; split; apply Z.leb_le; lia).
  split; [reflexivity |].
  rewrite !length_app, !length_decimal. reflexivity.
Qed.

Lemma length_truncateTitle (m h : nat) (s : jsstring) :
  length (truncateTitle m h s) <= m.
Proof.
  unfold truncateTitle, substring0.
  destruct (m <? length s) eqn:Hlong.
  - pose proof (length_firstn m s) as Hlen.
    destruct (lastIndexOf dash (firstn m s)) as [lastDash |]; [| lia].
    destruct (h <? lastDash); [| lia].
    rewrite length_firstn. lia.
  - apply Nat.ltb_ge in Hlong. exact Hlong.
Qed.

(** The case that the comments of the builder have in mind.  For a creation
    date whose year has four digits (0 to 9999) the file name is the
    ten-character date [YYYY-MM-DD], a hyphen, and at most 36 characters of
    title: at most 47 characters. *)
Theorem sanitizeFileName_bounded (docTitle : jsstring) (d : DateFields) :
  (0 <= year d <= 9999)%Z ->
  exists rest,
    sanitizeFileName docTitle (UTC d) = Some (isoDate d ++ lit "-" ++ rest)
    /\ isoDate d
       = decimal 4 (Z.to_N (year d)) ++ lit "-" ++ decimal 2 (month d)
         ++ lit "-" ++ decimal 2 (day d)
    /\ length (isoDate d) = 10
    /\ length rest <= 36
    /\ length (isoDate d ++ lit "-" ++ rest) <= 47.
Proof.
  intros Hy.
  destruct (length_isoDate_four_digits d Hy) as [Hshape Hlen].
  exists (truncateTitle 36 18 (cleanTitle docTitle)).
  pose proof (length_truncateTitle 36 18 (cleanTitle docTitle)) as Hrest.
  unfold sanitizeFileName. rewrite isoDay_UTC.
  repeat split; try assumption.
  rewrite !length_app, Hlen. simpl. lia.
Qed.

Lemma sanitizeFileName_bounded_witness :
  exists rest,
    sanitizeFileName (lit "My: Title?") (UTC (mkDate 2024 1 15 10 30 0 0))
    = Some (lit "2024-01-15" ++ lit "-" ++ rest)
    /\ lit "2024-01-15"
       = lit "2024" ++ lit "-" ++ lit "01" ++ lit "-" ++ lit "15"
    /\ length (lit "2024-01-15") = 10
    /\ length rest <= 36
    /\ length (lit "2024-01-15" ++ lit "-" ++ rest) <= 47.
Proof.
  apply (sanitizeFileName_bounded (lit "My: Title?")
           (mkDate 2024 1 15 10 30 0 0)).
  simpl. lia.
Defined.

(** C7. The builder misses its own budget on a valid date past the year
    9999.  The ISO form of such a date has a sign and six digits of year, so
    the date part takes 13 characters where the code counts on 10 (its
    comment on [dateStr], its budget of 36 characters of title and its
    documented format [YYYY-MM-DD]), and the name below has 49 characters:
    more than the 47 that leave room for the extension. *)
Lemma sanitizeFileName_expanded_year :
  validFields (mkDate 10000 1 1 0 0 0 0)
  /\ sanitizeFileName (lit "An unusually long title without any break")
       (UTC (mkDate 10000 1 1 0 0 0 0))
     = Some (lit "+010000-01-01-An-unusually-long-title-without-any")
  /\ ~ (length (lit "+010000-01-01-An-unusually-long-title-without-any") <= 47).
Proof.
  split; [| split].
  - unfold validFields. simpl. lia.
  - reflexivity.
  - vm_compute. lia.
Qed.

(** ** Header escaping *)

(** C10. [escapeYaml] maps [null], [undefined] and the empty string to the
    empty string: the header scalar of an absent or empty value is empty,
    without quotes and without a block-scalar marker. *)
Theorem escapeYaml_absent_is_empty (v : nullable jsstring) :
  v = Null \/ v = Undefined \/ v = Val [] -> escapeYaml v = [].
Proof. intros [-> | [-> | ->]]; reflexivity. Qed.

Lemma escapeYaml_absent_is_empty_witness :
  escapeYaml Null = [] /\ escapeYaml Undefined = [] /\ escapeYaml (Val []) = [].
Proof.
  split; [| split].
  - apply (escapeYaml_absent_is_empty Null). left. reflexivity.
  - apply (escapeYaml_absent_is_empty Undefined). right. left. reflexivity.
  - apply (escapeYaml_absent_is_empty (Val [])). right. right. reflexivity.
Defined.

(** The converse: only those three values give the empty scalar. *)
Lemma escapeYaml_empty_only_absent (v : nullable jsstring) :
  escapeYaml v = [] -> v = Null \/ v = Undefined \/ v = Val [].
Proof.
  destruct v as [| | s]; auto.
  destruct s as [| c s]; auto.
  unfold escapeYaml. simpl truthy. simpl negb. cbv iota. simpl orEmpty.
  repeat match goal with
         | |- context [if ?b then _ else _] => destruct b
         end; discriminate.
Qed.

(** A bookmark without url, note and summary has the three scalars empty in
    its header. *)
Example renderHeader_absent_fields :
  renderHeader (Sample.textBookmark (lit "hello") Null) (lit "T")
    Sample.noAssets
  = Some (lit "---\nbookmark_id: " ++ [dquote] ++ lit "b1" ++ [dquote]
          ++ lit "\nurl: \ntitle: T\ndate: 2024-01-15T10:30:00.000Z\n"
          ++ lit "tags:\n  - \nnote: \noriginal_note: \nsummary: \n\n---\n"
          ++ lit "\n# T\n").
Proof. vm_compute. reflexivity. Qed.

(** The scenario of the specification: a colon forces a block scalar. *)
Example escapeYaml_colon :
  escapeYaml (Val (lit "key: value")) = lit "|\n  key: value".
Proof. reflexivity. Qed.

(** ** The guard of the sync pass *)

(** C8. A call made while a pass is in progress returns the distinct
    result at once, leaves the plugin state as it was, and its only effect
    is a console message: no remote request and no file operation. *)
Theorem syncBookmarks_single_flight
    (runPass : PluginState -> PassOutcome * PluginState * list Effect)
    (st : PluginState) :
  isSyncing st = true ->
  syncBookmarks runPass st
  = ({| success := false; message := lit "Sync already in progress" |}, st,
     [ConsoleLog (lit "[Hoarder] Sync already in progress")])
  /\ forallb (fun e => negb (isRemoteOrFile e))
       (snd (syncBookmarks runPass st)) = true.
Proof.
  intros Hbusy. unfold syncBookmarks. rewrite Hbusy. split; reflexivity.
Qed.

Lemma syncBookmarks_single_flight_witness :
  syncBookmarks Sample.eagerPass Sample.busyPlugin
  = ({| success := false; message := lit "Sync already in progress" |},
     Sample.busyPlugin,
     [ConsoleLog (lit "[Hoarder] Sync already in progress")])
  /\ forallb (fun e => negb (isRemoteOrFile e))
       (snd (syncBookmarks Sample.eagerPass Sample.busyPlugin)) = true.
Proof.
  apply (syncBookmarks_single_flight Sample.eagerPass Sample.busyPlugin).
  reflexivity.
Defined.

(** Without the flag the same call runs the pass, with its requests and its
    file operations, and ends with the flag cleared. *)
Example syncBookmarks_idle_runs :
  let '(result, st', trace) :=
    syncBookmarks Sample.eagerPass Sample.idlePlugin in
  success result = true /\ isSyncing st' = false
  /\ existsb isRemoteOrFile trace = true.
Proof. repeat split. Qed.

(** ** Title resolver *)

(** The fallback, when it is reached on a valid date, is never empty. *)
Lemma fallbackTitle_nonempty (bookmark : HoarderBookmark) (t : jsstring) :
  fallbackTitle bookmark = Some t -> t <> [].
Proof.
  unfold fallbackTitle. destruct (isoDay (createdAt bookmark)); [| discriminate].
  intros [= <-]. change (lit "Bookmark-") with (66%N :: lit "ookmark-").
  discriminate.
Qed.

(** C6 fails on a text bookmark whose text begins with a line feed: the text
    is not empty, so the resolver takes its first line, which is empty. *)
Theorem getBookmarkTitle_empty_first_line
    (parseURL : jsstring -> option ParsedURL) :
  getBookmarkTitle parseURL (Sample.textBookmark (lit "\nhello") Null)
  = Some [].
Proof. reflexivity. Qed.

(** The same text without the leading line feed resolves to its first line,
    and the empty text falls back to the id and the day, as the tests of the
    resolver expect. *)
Example getBookmarkTitle_text_and_fallback
    (parseURL : jsstring -> option ParsedURL) :
  getBookmarkTitle parseURL (Sample.textBookmark (lit "hello\nworld") Null)
  = Some (lit "hello")
  /\ getBookmarkTitle parseURL (Sample.textBookmark [] Null)
     = Some (lit "Bookmark-b1-2024-01-15").
Proof. split; reflexivity. Qed.

(** The link of the specification's scenario, with the URL parsed as the
    platform does. *)
Example getBookmarkTitle_scenario :
  let parseURL := fun _ : jsstring =>
    Some {| pathname := lit "/my-article.html";
            hostname := lit "example.com" |} in
  getBookmarkTitle parseURL Sample.article = Some (lit "my article")
  /\ sanitizeFileName (lit "my article") (createdAt Sample.article)
     = Some (lit "2024-01-15-my-article").
Proof. split; reflexivity. Qed.

(** ** Notes round trip *)

Lemma startsWith_refl_app (m b : jsstring) : startsWith m (m ++ b) = true.
Proof.
  induction m as [| c m IH]; simpl; [reflexivity |].
  rewrite N.eqb_refl. exact IH.
Qed.

(** A prefix test only looks at as many characters as the prefix has. *)
Lemma startsWith_app_long (m : jsstring) :
  forall s t, length m <= length s -> startsWith m (s ++ t) = startsWith m s.
Proof.
  induction m as [| c m IH]; intros s t Hlen; [reflexivity |].
  destruct s as [| d s]; simpl in Hlen; [lia |].
  simpl. rewrite IH by lia. reflexivity.
Qed.

Lemma afterFirst_cons (m : jsstring) (c : N) (s : jsstring) :
  afterFirst m (c :: s)
  = if startsWith m (c :: s) then Some (skipn (length m) (c :: s))
    else afterFirst m s.
Proof. reflexivity. Qed.

Lemma occurs_cons (m : jsstring) (c : N) (s : jsstring) :
  occurs m (c :: s) = startsWith m (c :: s) || occurs m s.
Proof.
  unfold occurs. rewrite afterFirst_cons.
  destruct (startsWith m (c :: s)); reflexivity.
Qed.

Lemma afterFirst_at_start (m b : jsstring) :
  m <> [] -> afterFirst m (m ++ b) = Some b.
Proof.
  intros Hm. destruct m as [| c m]; [congruence |].
  pose proof (startsWith_refl_app (c :: m) b) as Hstart.
  simpl app in *. rewrite afterFirst_cons, Hstart.
  f_equal. apply (drop_app_length (c :: m) b).
Qed.

(** When the marker, less its last character, cannot be completed anywhere
    in [a], the first occurrence of the marker in [a ++ marker ++ b] is the
    one written out, and [b] is what follows it. *)
Lemma afterFirst_written (m0 : jsstring) (x : N) (b : jsstring) :
  forall a,
    occurs (m0 ++ [x]) (a ++ m0) = false ->
    afterFirst (m0 ++ [x]) (a ++ (m0 ++ [x]) ++ b) = Some b.
Proof.
  induction a as [| c a IH]; intros Hnone.
  - apply (afterFirst_at_start (m0 ++ [x]) b). destruct m0; discriminate.
  - simpl app in *. rewrite occurs_cons in Hnone.
    apply orb_false_iff in Hnone. destruct Hnone as [Hhere Hlater].
    rewrite afterFirst_cons.
    replace (startsWith (m0 ++ [x]) (c :: a ++ (m0 ++ [x]) ++ b)) with false.
    + apply IH. exact Hlater.
    + rewrite <- Hhere. symmetry.
      replace (c :: a ++ (m0 ++ [x]) ++ b)
        with ((c :: a ++ m0) ++ [x] ++ b)
        by (simpl; rewrite <- !app_assoc; reflexivity).
      apply startsWith_app_long.
      simpl. rewrite !length_app. simpl. lia.
Qed.

Lemma startsWith_cons_cons (a : N) (p : jsstring) (b : N) (s : jsstring) :
  startsWith (a :: p) (b :: s) = (a =? b)%N && startsWith p s.
Proof. reflexivity. Qed.

Lemma startsWith_cons_nil (a : N) (p : jsstring) :
  startsWith (a :: p) [] = false.
Proof. reflexivity. Qed.

Lemma startsWith_nil (s : jsstring) : startsWith [] s = true.
Proof. destruct s; reflexivity. Qed.

Ltac startsWith_steps :=
  rewrite ?startsWith_cons_cons, ?startsWith_cons_nil, ?startsWith_nil.

Lemma atBoundary_cons (c : N) (s : jsstring) :
  atBoundary (c :: s) = (c =? nl)%N && beginsHeaderOrLink s.
Proof.
  unfold atBoundary, beginsHeaderOrLink.
  change (lit "\n##") with (nl :: lit "##").
  change (lit "\n[") with (nl :: lit "[").
  startsWith_steps. rewrite (N.eqb_sym nl c).
  change (isEmpty (c :: s)) with false.
  destruct (c =? nl)%N, (startsWith (lit "##") s), (startsWith (lit "[") s);
    reflexivity.
Qed.

(** A line feed right after [s] begins neither a header nor a link. *)
Lemma beginsHeaderOrLink_before_nl (s t : jsstring) :
  beginsHeaderOrLink (s ++ nl :: t) = beginsHeaderOrLink s.
Proof.
  unfold beginsHeaderOrLink.
  change (lit "##") with [hash; hash]. change (lit "[") with [lbracket].
  destruct s as [| a [| b s]]; simpl app; startsWith_steps.
  - reflexivity.
  - change (hash =? nl)%N with false. destruct (hash =? a)%N; reflexivity.
  - reflexivity.
Qed.

(** On a note none of whose later lines begins a header or a link, the lazy
    capture runs through the note and stops before the blank line that
    precedes the link. *)
Lemma capture_note (rest : jsstring) :
  forall n,
    laterLineBegins n = false ->
    captureUntilBoundary (n ++ nl :: nl :: lbracket :: rest) = n ++ [nl].
Proof.
  induction n as [| c n IH]; intros Hn.
  - reflexivity.
  - simpl in Hn. apply orb_false_iff in Hn. destruct Hn as [Hc Hn].
    simpl app.
    change (captureUntilBoundary (c :: n ++ nl :: nl :: lbracket :: rest))
      with (if atBoundary (c :: n ++ nl :: nl :: lbracket :: rest) then []
            else c :: captureUntilBoundary (n ++ nl :: nl :: lbracket :: rest)).
    rewrite atBoundary_cons, beginsHeaderOrLink_before_nl, Hc.
    rewrite IH by exact Hn. reflexivity.
Qed.

Lemma dropWhile_snoc (p : N -> bool) (w : N) :
  p w = true ->
  forall s,
    dropWhile p (s ++ [w])
    = if forallb p s then [] else dropWhile p s ++ [w].
Proof.
  intros Hw. induction s as [| c s IH]; simpl.
  - rewrite Hw. reflexivity.
  - destruct (p c); simpl; [exact IH | reflexivity].
Qed.

Lemma dropWhile_all (p : N -> bool) (s : jsstring) :
  forallb p s = true -> dropWhile p s = [].
Proof.
  induction s as [| c s IH]; simpl; [reflexivity |].
  destruct (p c); simpl; [exact IH | discriminate].
Qed.

(** White space appended to a text is trimmed away. *)
Lemma trim_snoc (w : N) (s : jsstring) :
  isWhiteSpace w = true -> trim (s ++ [w]) = trim s.
Proof.
  intros Hw. unfold trim. rewrite (dropWhile_snoc _ w Hw).
  destruct (forallb isWhiteSpace s) eqn:Hall.
  - rewrite (dropWhile_all _ _ Hall). reflexivity.
  - rewrite rev_app_distr. simpl. rewrite Hw. reflexivity.
Qed.

(** The text after the Notes section starts with a line feed and a link. *)
Lemma linksSection_begins (st : HoarderSettings) (bookmark : HoarderBookmark) :
  exists rest, linksSection st bookmark = nl :: lbracket :: rest.
Proof.
  unfold linksSection.
  destruct (truthy (bookmarkUrl bookmark)
            && negb (isAsset (type (content bookmark))));
    eexists; reflexivity.
Qed.

(** C1, as the code has it. When the Notes header that the renderer writes
    is the first place of the document where the text [## Notes] and a blank
    line occur, and no line of the note begins a section header or a link,
    extracting the notes of the rendered document gives the trimmed note. *)
Theorem notes_round_trip (toLocaleDateString : JSDate -> jsstring)
    (st : HoarderSettings) (bookmark : HoarderBookmark) (docTitle : jsstring)
    (highlights : option (list HoarderHighlight)) (processed : ProcessedAssets)
    (before : jsstring) :
  contentBeforeNotes toLocaleDateString st bookmark docTitle highlights
    processed = Some before ->
  occurs (lit "## Notes\n\n") (before ++ lit "\n## Notes\n") = false ->
  hasHeaderOrLinkLine (orEmpty (note bookmark)) = false ->
  exists doc,
    formatBookmarkAsMarkdown toLocaleDateString st bookmark docTitle
      highlights processed = Some doc
    /\ extractNotesSection doc = Some (trim (orEmpty (note bookmark))).
Proof.
  intros Hbefore Hfirst Hlines.
  unfold formatBookmarkAsMarkdown. rewrite Hbefore.
  eexists. split; [reflexivity |].
  destruct (linksSection_begins st bookmark) as [rest Hlinks].
  rewrite Hlinks. unfold notesSection, extractNotesSection.
  set (n := orEmpty (note bookmark)) in *.
  apply orb_false_iff in Hlines. destruct Hlines as [_ Hlater].
  change (lit "## Notes\n\n") with (lit "## Notes\n" ++ [nl]) in *.
  change (lit "\n## Notes\n") with ([nl] ++ lit "## Notes\n") in Hfirst.
  change (lit "\n## Notes\n\n") with ([nl] ++ lit "## Notes\n" ++ [nl]).
  change (lit "\n") with [nl].
  replace (before
           ++ (([nl] ++ lit "## Notes\n" ++ [nl]) ++ n ++ [nl])
           ++ nl :: lbracket :: rest)
    with ((before ++ [nl]) ++ (lit "## Notes\n" ++ [nl])
          ++ (n ++ nl :: nl :: lbracket :: rest))
    by (rewrite <- !app_assoc; reflexivity).
  rewrite afterFirst_written
    by (rewrite <- app_assoc; exact Hfirst).
  rewrite (capture_note rest n Hlater).
  rewrite trim_snoc by reflexivity. reflexivity.
Qed.

Lemma notes_round_trip_witness :
  exists doc,
    formatBookmarkAsMarkdown Sample.longDate Sample.pluginSettings
      Sample.annotated (lit "My Article") (Some [Sample.highlight1])
      Sample.noAssets = Some doc
    /\ extractNotesSection doc = Some (trim (orEmpty (note Sample.annotated))).
Proof.
  refine (notes_round_trip Sample.longDate Sample.pluginSettings
            Sample.annotated (lit "My Article") (Some [Sample.highlight1])
            Sample.noAssets _ _ _ _).
  - vm_compute. reflexivity.
  - vm_compute. reflexivity.
  - vm_compute. reflexivity.
Defined.

(** C1, as stated, fails: the note holds no header and no link, but the text
    of the bookmark, rendered in the Description section, holds the Notes
    header, and the extractor stops at that first occurrence. *)
Lemma notes_round_trip_shadowed :
  hasHeaderOrLinkLine (lit "real") = false
  /\ match
       formatBookmarkAsMarkdown Sample.longDate Sample.pluginSettings
         (Sample.textBookmark (lit "## Notes\n\nbuy milk") (Val (lit "real")))
         (lit "Shopping") None Sample.noAssets
     with
     | Some doc => extractNotesSection doc
     | None => None
     end = Some (lit "buy milk")
  /\ lit "buy milk" <> trim (lit "real").
Proof.
  split; [| split].
  - reflexivity.
  - vm_compute. reflexivity.
  - vm_compute. discriminate.
Qed.

(** * Further properties of the modelled code *)

(** ** Tag sanitizer, continued *)

(** X1. A tag that the sanitizer accepts is made of letters, digits,
    underscores, hyphens and slashes only, is not empty and holds at least
    one letter: it is a valid tag of the editor. *)
Theorem sanitizeTag_output_valid (t s : jsstring) :
  sanitizeTag t = Some s ->
  Forall (fun c => isTagChar c = true) s /\ s <> []
  /\ existsb isLetter s = true.
Proof. intros H. exact (sanitizeTag_wellFormed t s H). Qed.

Lemma sanitizeTag_output_valid_witness :
  Forall (fun c => isTagChar c = true) (lit "tag-2024-/-01-")
  /\ lit "tag-2024-/-01-" <> []
  /\ existsb isLetter (lit "tag-2024-/-01-") = true.
Proof.
  apply (sanitizeTag_output_valid (lit " 2024 / 01 ! ")). reflexivity.
Defined.

Lemma omap_fixed (f : jsstring -> option jsstring) (l : list jsstring) :
  Forall (fun x => f x = Some x) l -> omap f l = l.
Proof.
  induction 1 as [| x l Hx _ IH]; simpl; [reflexivity |].
  rewrite Hx. simpl. f_equal. exact IH.
Qed.

Lemma length_omap_le (f : jsstring -> option jsstring) (l : list jsstring) :
  length (omap f l) <= length l.
Proof.
  induction l as [| x l IH]; simpl; [lia |].
  destruct (f x); simpl; unfold omap in IH; lia.
Qed.

(** X2. The batch form drops what the sanitizer refuses and keeps the rest:
    its result holds valid tags only and has at most as many entries as the
    input. *)
Theorem sanitizeTags_valid_and_shorter (ts : list jsstring) :
  Forall wellFormedTag (sanitizeTags ts)
  /\ length (sanitizeTags ts) <= length ts.
Proof.
  split; [apply sanitizeTags_wellFormed | apply length_omap_le].
Qed.

(** X3. Sanitizing a sanitized list of tags changes nothing. *)
Theorem sanitizeTags_idempotent (ts : list jsstring) :
  sanitizeTags (sanitizeTags ts) = sanitizeTags ts.
Proof.
  unfold sanitizeTags at 1. apply omap_fixed.
  eapply Forall_impl; [apply sanitizeTags_wellFormed |].
  intros s Hs. apply sanitizeTag_fixes_wellFormed. exact Hs.
Qed.

(** A tag is refused exactly when, once trimmed, it holds no white space and
    no character that a tag may keep. *)
Lemma replaceRunsFrom_keeps_some (p q : N -> bool) (r : jsstring) :
  (forall c, p c = true -> q c = false) ->
  forall s inRun,
    existsb q s = true ->
    existsb q (replaceRunsFrom p r inRun s) = true.
Proof.
  intros Hpq. induction s as [| c s IH]; intros inRun; simpl; [discriminate |].
  destruct (p c) eqn:Hp.
  - rewrite (Hpq c Hp). simpl. intros H.
    rewrite existsb_app. rewrite (IH true H). apply orb_true_r.
  - simpl. destruct (q c); simpl; [reflexivity | apply IH].
Qed.

Lemma keepOnly_nonempty_iff (p : N -> bool) (s : jsstring) :
  isEmpty (keepOnly p s) = negb (existsb p s).
Proof.
  unfold keepOnly. induction s as [| c s IH]; simpl; [reflexivity |].
  destruct (p c); simpl; [reflexivity | exact IH].
Qed.

Lemma replaceRunsFrom_fresh_run (p : N -> bool) (r : jsstring) (q : N -> bool) :
  existsb q r = true ->
  forall s, existsb p s = true ->
  existsb q (replaceRunsFrom p r false s) = true.
Proof.
  intros Hr. induction s as [| c s IH]; simpl; [discriminate |].
  destruct (p c) eqn:Hp; simpl.
  - intros _. rewrite existsb_app, Hr. reflexivity.
  - intros H. destruct (q c); simpl; [reflexivity | apply IH; exact H].
Qed.

(** X4. The sanitizer refuses a tag exactly when its trimmed text holds
    neither white space nor any character that a tag may keep. *)
Theorem sanitizeTag_refuses_iff (t : jsstring) :
  sanitizeTag t = None
  <-> existsb (fun c => isTagChar c || isWhiteSpace c) (trim t) = false.
Proof.
  unfold sanitizeTag.
  destruct (trim t) as [| c0 s0] eqn:Htrim.
  - simpl. split; reflexivity.
  - remember (c0 :: s0) as s eqn:Hs.
    replace (isEmpty s) with false by (subst s; reflexivity).
    rewrite keepOnly_nonempty_iff.
    destruct (existsb isTagChar
                (replaceRuns isWhiteSpace (lit "-") s)) eqn:Hkept; simpl.
    + split; [discriminate |]. intros Hnone. exfalso.
      assert (Hboth : existsb isTagChar s = false
                      /\ existsb isWhiteSpace s = false).
      { clear -Hnone. induction s as [| c s IH]; simpl in *; [auto |].
        apply orb_false_iff in Hnone. destruct Hnone as [Hc Hs].
        apply orb_false_iff in Hc. destruct Hc as [Hc1 Hc2].
        destruct (IH Hs) as [H1 H2]. rewrite Hc1, Hc2, H1, H2. auto. }
      destruct Hboth as [Htag Hws].
      unfold replaceRuns in Hkept.
      rewrite replaceRunsFrom_none in Hkept; [congruence |].
      clear -Hws. induction s as [| c s IH]; [constructor |].
      simpl in Hws. apply orb_false_iff in Hws. destruct Hws.
      constructor; auto.
    + split; [| reflexivity]. intros _.
      apply not_true_is_false. intros Hsome.
      assert (Hcases : existsb isTagChar s = true
                       \/ existsb isWhiteSpace s = true).
      { clear -Hsome. induction s as [| c s IH]; simpl in *; [discriminate |].
        destruct (isTagChar c), (isWhiteSpace c); simpl in *; auto. }
      unfold replaceRuns in Hkept. destruct Hcases as [Htag | Hws].
      * rewrite (replaceRunsFrom_keeps_some isWhiteSpace isTagChar) in Hkept;
          [discriminate | | exact Htag].
        intros c Hc. destruct (isTagChar c) eqn:Ht; [| reflexivity].
        rewrite (tagChar_not_whitespace c Ht) in Hc. discriminate.
      * rewrite (replaceRunsFrom_fresh_run isWhiteSpace (lit "-") isTagChar)
          in Hkept; [discriminate | reflexivity | exact Hws].
Qed.

(** ** Tag filter, continued *)

Lemma some_includes_true_iff (bookmarkTags wanted : list jsstring) :
  some (fun w => includes w bookmarkTags) wanted = true
  <-> exists t, (t ∈ wanted) /\ (t ∈ bookmarkTags).
Proof.
  unfold some, includes. rewrite existsb_exists. split.
  - intros [t [Hin Hdec]]. exists t. split.
    + apply list_elem_of_In. exact Hin.
    + apply bool_decide_eq_true_1 in Hdec. exact Hdec.
  - intros [t [Hin Htag]]. exists t. split.
    + apply list_elem_of_In. exact Hin.
    + apply bool_decide_eq_true_2. exact Htag.
Qed.

Lemma length_pos_iff (l : list jsstring) : (0 <? length l) = true <-> l <> [].
Proof.
  destruct l; simpl; split; intros H; try congruence; try discriminate.
  reflexivity.
Qed.

Lemma some_nil (p : jsstring -> bool) : some p [] = false.
Proof. reflexivity. Qed.

(** The decision as one boolean formula. *)
Lemma shouldIncludeBookmark_include_eq
    (bookmarkTags includedTags excludedTags : list jsstring)
    (isFavorited : bool) :
  include
    (shouldIncludeBookmark bookmarkTags includedTags excludedTags isFavorited)
  = (bool_decide (includedTags = [])
     || some (fun t => includes t bookmarkTags) includedTags)
    && (isFavorited
        || negb (some (fun t => includes t bookmarkTags) excludedTags)).
Proof.
  unfold shouldIncludeBookmark.
  destruct includedTags as [| i0 il].
  - rewrite some_nil. simpl (0 <? length []). cbv iota. simpl andb.
    destruct excludedTags as [| e0 el].
    + rewrite some_nil. destruct isFavorited; reflexivity.
    + simpl (0 <? length (e0 :: el)).
      destruct isFavorited,
        (some (fun t => includes t bookmarkTags) (e0 :: el)); reflexivity.
  - simpl (0 <? length (i0 :: il)).
    destruct (some (fun t => includes t bookmarkTags) (i0 :: il));
      [| reflexivity].
    destruct excludedTags as [| e0 el].
    + rewrite some_nil. destruct isFavorited; reflexivity.
    + simpl (0 <? length (e0 :: el)).
      destruct isFavorited,
        (some (fun t => includes t bookmarkTags) (e0 :: el)); reflexivity.
Qed.

(** X5. A bookmark is included exactly when it meets the include list (the
    list is empty or shares a tag with the bookmark) and passes the exclude
    list (it is a favorite or shares no tag with the list). *)
Theorem shouldIncludeBookmark_include_iff
    (bookmarkTags includedTags excludedTags : list jsstring)
    (isFavorited : bool) :
  include
    (shouldIncludeBookmark bookmarkTags includedTags excludedTags isFavorited)
  = true
  <-> (includedTags = []
       \/ exists t, (t ∈ includedTags) /\ (t ∈ bookmarkTags))
      /\ (isFavorited = true
          \/ forall t, t ∈ excludedTags -> t ∉ bookmarkTags).
Proof.
  rewrite shouldIncludeBookmark_include_eq.
  rewrite andb_true_iff, !orb_true_iff, negb_true_iff.
  rewrite bool_decide_eq_true, some_includes_true_iff.
  rewrite <- not_true_iff_false, some_includes_true_iff.
  split; intros [Hinc Hexc]; (split; [exact Hinc |]).
  - destruct Hexc as [Hfav | Hnone]; [left; exact Hfav | right].
    intros t Ht Hb. apply Hnone. exists t. auto.
  - destruct Hexc as [Hfav | Hnone]; [left; exact Hfav | right].
    intros [t [Ht Hb]]. exact (Hnone t Ht Hb).
Qed.

Lemma shouldIncludeBookmark_reason_eq
    (bookmarkTags includedTags excludedTags : list jsstring)
    (isFavorited : bool) :
  reason
    (shouldIncludeBookmark bookmarkTags includedTags excludedTags isFavorited)
  = if negb (bool_decide (includedTags = []))
       && negb (some (fun t => includes t bookmarkTags) includedTags)
    then Some missing_included_tag
    else if negb isFavorited
            && some (fun t => includes t bookmarkTags) excludedTags
    then Some excluded_tag
    else None.
Proof.
  unfold shouldIncludeBookmark.
  destruct includedTags as [| i0 il].
  - rewrite some_nil. simpl (0 <? length []). cbv iota. simpl andb.
    destruct excludedTags as [| e0 el].
    + rewrite some_nil. destruct isFavorited; reflexivity.
    + simpl (0 <? length (e0 :: el)).
      destruct isFavorited,
        (some (fun t => includes t bookmarkTags) (e0 :: el)); reflexivity.
  - simpl (0 <? length (i0 :: il)).
    destruct (some (fun t => includes t bookmarkTags) (i0 :: il));
      [| reflexivity].
    destruct excludedTags as [| e0 el].
    + rewrite some_nil. destruct isFavorited; reflexivity.
    + simpl (0 <? length (e0 :: el)).
      destruct isFavorited,
        (some (fun t => includes t bookmarkTags) (e0 :: el)); reflexivity.
Qed.

(** X6. The two reasons: the include list is reported when it is not empty
    and shares no tag with the bookmark; the exclude list is reported when
    the include list is met, the bookmark is no favorite and shares a tag
    with the exclude list. *)
Theorem shouldIncludeBookmark_reason_iff
    (bookmarkTags includedTags excludedTags : list jsstring)
    (isFavorited : bool) :
  let r :=
    shouldIncludeBookmark bookmarkTags includedTags excludedTags isFavorited in
  (reason r = Some missing_included_tag
   <-> includedTags <> []
       /\ forall t, t ∈ includedTags -> t ∉ bookmarkTags)
  /\ (reason r = Some excluded_tag
      <-> (includedTags = []
           \/ exists t, (t ∈ includedTags) /\ (t ∈ bookmarkTags))
          /\ isFavorited = false
          /\ exists t, (t ∈ excludedTags) /\ (t ∈ bookmarkTags)).
Proof.
  cbv zeta. rewrite shouldIncludeBookmark_reason_eq.
  pose proof (some_includes_true_iff bookmarkTags includedTags) as Hinc.
  pose proof (some_includes_true_iff bookmarkTags excludedTags) as Hexc.
  destruct (bool_decide_reflect (includedTags = [])) as [Hnil | Hne];
    destruct (some (fun t => includes t bookmarkTags) includedTags);
    destruct (some (fun t => includes t bookmarkTags) excludedTags);
    destruct isFavorited; simpl;
    (split; split; [intros H | intros H | intros H | intros H]);
    try discriminate; try reflexivity; firstorder congruence.
Qed.

(** ** Deletion and archival classifier, continued *)

Lemma elem_of_instructionsFor (active archivedIds : gset jsstring)
    (s : DeletionSettings) (x : jsstring) (i : FileHandlingInstruction) :
  i ∈ instructionsFor active archivedIds s x
  <-> bookmarkId i = x /\ (x ∉ active)
      /\ ((instrReason i = deleted /\ (x ∉ archivedIds)
           /\ syncDeletions s = true /\ action i = deletionAction s
           /\ action i <> ignore)
          \/ (instrReason i = archived /\ (x ∈ archivedIds)
              /\ handleArchivedBookmarks s = true
              /\ action i = archivedBookmarkAction s
              /\ action i <> ignore)).
Proof.
  unfold instructionsFor.
  destruct (bool_decide_reflect (x ∈ active)) as [Ha | Ha];
    destruct (bool_decide_reflect (x ∈ archivedIds)) as [Hr | Hr]; simpl.
  - rewrite elem_of_nil. firstorder congruence.
  - rewrite elem_of_nil. firstorder congruence.
  - destruct (handleArchivedBookmarks s) eqn:Hh; simpl.
    + destruct (archivedBookmarkAction s) eqn:Hact; simpl;
        rewrite ?elem_of_nil, ?list_elem_of_singleton;
        (split; [intros H; try contradiction; subst i; simpl;
                 rewrite ?Hact; intuition congruence
                | intros (Hid & _ & [Hd | Hx]);
                  [ intuition congruence
                  | destruct Hx as (Hre & _ & _ & Hac & Hni);
                    try (rewrite Hac in Hni; congruence);
                    destruct i; simpl in *; congruence ]]).
    + rewrite elem_of_nil. firstorder congruence.
  - destruct (syncDeletions s) eqn:Hh; simpl.
    + destruct (deletionAction s) eqn:Hact; simpl;
        rewrite ?elem_of_nil, ?list_elem_of_singleton;
        (split; [intros H; try contradiction; subst i; simpl;
                 rewrite ?Hact; intuition congruence
                | intros (Hid & _ & [Hx | Hd]);
                  [ destruct Hx as (Hre & _ & _ & Hac & Hni);
                    try (rewrite Hac in Hni; congruence);
                    destruct i; simpl in *; congruence
                  | intuition congruence ]]).
    + rewrite elem_of_nil. firstorder congruence.
Qed.

(** X7. The classifier, read as a specification: an instruction is emitted
    for a local id exactly when the id is not active and either it is not
    archived, deletions are synchronised and the configured deletion action
    is not [ignore], or it is archived, archived bookmarks are handled and
    the configured archival action is not [ignore]. *)
Theorem determineDeletionActions_iff (localBookmarkIds : list jsstring)
    (activeBookmarkIds archivedBookmarkIds : gset jsstring)
    (s : DeletionSettings) (i : FileHandlingInstruction) :
  i ∈ determineDeletionActions localBookmarkIds activeBookmarkIds
        archivedBookmarkIds s
  <-> (bookmarkId i ∈ localBookmarkIds)
      /\ (bookmarkId i ∉ activeBookmarkIds)
      /\ ((instrReason i = deleted /\ (bookmarkId i ∉ archivedBookmarkIds)
           /\ syncDeletions s = true /\ action i = deletionAction s
           /\ action i <> ignore)
          \/ (instrReason i = archived
              /\ (bookmarkId i ∈ archivedBookmarkIds)
              /\ handleArchivedBookmarks s = true
              /\ action i = archivedBookmarkAction s
              /\ action i <> ignore)).
Proof.
  unfold determineDeletionActions.
  destruct (negb (syncDeletions s) && negb (handleArchivedBookmarks s))
    eqn:Hoff.
  - apply andb_true_iff in Hoff. destruct Hoff as [H1 H2].
    apply negb_true_iff in H1, H2. rewrite elem_of_nil.
    split; [contradiction |].
    intros (_ & _ & [H | H]); destruct H as (_ & _ & Hon & _); congruence.
  - rewrite list_elem_of_In, in_flat_map. split.
    + intros [x [Hx Hi]].
      apply list_elem_of_In in Hx, Hi.
      apply elem_of_instructionsFor in Hi.
      destruct Hi as (Hid & Ha & Hcases). subst x. auto.
    + intros (Hin & Ha & Hcases). exists (bookmarkId i).
      rewrite <- !list_elem_of_In. split; [exact Hin |].
      apply elem_of_instructionsFor. auto.
Qed.

Lemma instructionsFor_ids (active archivedIds : gset jsstring)
    (s : DeletionSettings) (x : jsstring) :
  List.map bookmarkId (instructionsFor active archivedIds s x) = []
  \/ List.map bookmarkId (instructionsFor active archivedIds s x) = [x].
Proof.
  unfold instructionsFor.
  repeat match goal with
         | |- context [if ?b then _ else _] => destruct b
         end; simpl; auto.
Qed.

(** X8. The instructions follow the order of the local ids, and each local
    entry gets at most one: the ids of the instructions form a sublist of
    the local ids. *)
Theorem determineDeletionActions_in_order (localBookmarkIds : list jsstring)
    (activeBookmarkIds archivedBookmarkIds : gset jsstring)
    (s : DeletionSettings) :
  sublist
    (List.map bookmarkId
       (determineDeletionActions localBookmarkIds activeBookmarkIds
          archivedBookmarkIds s))
    localBookmarkIds.
Proof.
  unfold determineDeletionActions.
  destruct (negb (syncDeletions s) && negb (handleArchivedBookmarks s)).
  - apply sublist_nil_l.
  - induction localBookmarkIds as [| x l IH]; simpl.
    + constructor.
    + rewrite List.map_app.
      destruct (instructionsFor_ids activeBookmarkIds archivedBookmarkIds s x)
        as [E | E]; rewrite E; simpl.
      * apply sublist_cons. exact IH.
      * apply sublist_skip. exact IH.
Qed.

(** The counting loop run on the instructions of a list of local ids, from
    any starting tally. *)
Lemma fold_countOne_classifier (active archivedIds : gset jsstring)
    (s : DeletionSettings) (l : list jsstring) (r : DeletionResults) :
  let gone :=
    length
      (List.filter
         (fun i => negb (bool_decide (i ∈ active))
                   && negb (bool_decide (i ∈ archivedIds))) l) in
  let shelved :=
    length
      (List.filter
         (fun i => negb (bool_decide (i ∈ active))
                   && bool_decide (i ∈ archivedIds)) l) in
  fold_left countOne (flat_map (instructionsFor active archivedIds s) l) r
  = {| deletedCount :=
         deletedCount r
         + (if syncDeletions s
            then match deletionAction s with delete => gone | _ => 0 end
            else 0);
       archivedCount :=
         archivedCount r
         + (if syncDeletions s
            then match deletionAction s with archive => gone | _ => 0 end
            else 0);
       taggedCount :=
         taggedCount r
         + (if syncDeletions s
            then match deletionAction s with tag => gone | _ => 0 end
            else 0);
       archivedHandled :=
         archivedHandled r
         + (if handleArchivedBookmarks s
               && negb (isIgnore (archivedBookmarkAction s))
            then shelved else 0) |}.
Proof.
  revert r. induction l as [| x l IH]; intros r.
  - destruct r, s as [sd da ha aa]. simpl.
    destruct sd, da, ha, aa; simpl; f_equal; lia.
  - change (flat_map (instructionsFor active archivedIds s) (x :: l))
      with (instructionsFor active archivedIds s x
            ++ flat_map (instructionsFor active archivedIds s) l).
    rewrite fold_left_app, IH. clear IH.
    unfold instructionsFor. simpl List.filter.
    destruct r as [a b c d], s as [sd da ha aa].
    destruct (bool_decide (x ∈ active)), (bool_decide (x ∈ archivedIds)),
      sd, da, ha, aa; simpl; f_equal; lia.
Qed.

(** X9. The tally of a classified pass, read off the local ids.  Local ids
    that are neither active nor archived are all counted in the one bucket
    of the configured deletion action, when deletions are synchronised;
    local ids that are archived and not active are counted as handled, when
    archived bookmarks are handled and their action is not [ignore]; the
    other buckets stay at zero, and the four buckets add up to the number of
    instructions. *)
Theorem countDeletionResults_of_pass (localBookmarkIds : list jsstring)
    (activeBookmarkIds archivedBookmarkIds : gset jsstring)
    (s : DeletionSettings) :
  let instructions :=
    determineDeletionActions localBookmarkIds activeBookmarkIds
      archivedBookmarkIds s in
  let r := countDeletionResults instructions in
  let gone :=
    length
      (List.filter
         (fun i => negb (bool_decide (i ∈ activeBookmarkIds))
                   && negb (bool_decide (i ∈ archivedBookmarkIds)))
         localBookmarkIds) in
  let shelved :=
    length
      (List.filter
         (fun i => negb (bool_decide (i ∈ activeBookmarkIds))
                   && bool_decide (i ∈ archivedBookmarkIds))
         localBookmarkIds) in
  deletedCount r
  = (if syncDeletions s
     then match deletionAction s with delete => gone | _ => 0 end else 0)
  /\ archivedCount r
     = (if syncDeletions s
        then match deletionAction s with archive => gone | _ => 0 end else 0)
  /\ taggedCount r
     = (if syncDeletions s
        then match deletionAction s with tag => gone | _ => 0 end else 0)
  /\ archivedHandled r
     = (if handleArchivedBookmarks s
           && negb (isIgnore (archivedBookmarkAction s))
        then shelved else 0)
  /\ totalCounted r = length instructions.
Proof.
  intros instructions r gone shelved.
  split; [| split; [| split; [| split]]];
    try exact (countDeletionResults_of_classifier localBookmarkIds
                 activeBookmarkIds archivedBookmarkIds s);
    subst r instructions; unfold countDeletionResults, determineDeletionActions;
    destruct (negb (syncDeletions s) && negb (handleArchivedBookmarks s))
      eqn:Hoff.
  all: try (rewrite fold_countOne_classifier; reflexivity).
  all: apply andb_prop in Hoff as [H1 H2];
    apply negb_true_iff in H1, H2; rewrite ?H1, ?H2; reflexivity.
Qed.

(** ** The id sets of the sync pass *)

(** X10. The archived ids that the pass derives are the ids of the listed
    bookmarks that carry the archived flag and are not active; so the two
    sets handed to the classifier never share an id. *)
Theorem archivedIdsOf_spec (activeBookmarkIds : gset jsstring)
    (allBookmarks : list HoarderBookmark) :
  (forall x,
     x ∈ archivedIdsOf activeBookmarkIds allBookmarks
     <-> (x ∉ activeBookmarkIds)
         /\ exists b, (b ∈ allBookmarks) /\ id b = x /\ isArchived b = true)
  /\ archivedIdsOf activeBookmarkIds allBookmarks ## activeBookmarkIds.
Proof.
  assert (Hspec : forall x,
     x ∈ archivedIdsOf activeBookmarkIds allBookmarks
     <-> (x ∉ activeBookmarkIds)
         /\ exists b, (b ∈ allBookmarks) /\ id b = x /\ isArchived b = true).
  { intros x. unfold archivedIdsOf.
    rewrite elem_of_list_to_set, list_elem_of_In, in_map_iff. split.
    - intros [b [Hid Hb]]. apply filter_In in Hb. destruct Hb as [Hin Hok].
      apply andb_true_iff in Hok. destruct Hok as [Harch Hna].
      apply negb_true_iff, bool_decide_eq_false_1 in Hna. subst x.
      split; [exact Hna |]. exists b.
      rewrite list_elem_of_In. auto.
    - intros [Hna [b (Hin & Hid & Harch)]]. exists b. split; [exact Hid |].
      apply filter_In. split; [apply list_elem_of_In; exact Hin |].
      rewrite Harch. simpl. apply negb_true_iff, bool_decide_eq_false_2.
      rewrite Hid. exact Hna. }
  split; [exact Hspec |].
  intros x Hx Ha. apply Hspec in Hx. destruct Hx as [Hna _]. exact (Hna Ha).
Qed.

(** ** Filename builder, continued *)

Lemma replaceEach_Forall (P : N -> Prop) (p : N -> bool) (r s : jsstring) :
  Forall P r -> (forall c, p c = false -> P c) ->
  Forall P (replaceEach p r s).
Proof.
  intros Hr Hkeep. induction s as [| c s IH]; simpl; [constructor |].
  apply Forall_app. split; [| exact IH].
  destruct (p c) eqn:Hc; [exact Hr |].
  constructor; [apply Hkeep; exact Hc | constructor].
Qed.

Lemma replaceRunsFrom_Forall (P : N -> Prop) (p : N -> bool) (r : jsstring) :
  Forall P r ->
  forall s inRun,
    Forall (fun c => p c = false -> P c) s ->
    Forall P (replaceRunsFrom p r inRun s).
Proof.
  intros Hr. induction s as [| c s IH]; intros inRun Hs; simpl;
    [constructor |].
  inversion Hs as [| ? ? Hc Hs']; subst.
  destruct (p c) eqn:Hpc.
  - apply Forall_app. split; [destruct inRun; [constructor | exact Hr] |].
    apply IH. exact Hs'.
  - constructor; [apply Hc; reflexivity | apply IH; exact Hs'].
Qed.

Lemma stripEdgeDashes_Forall (P : N -> Prop) (s : jsstring) :
  Forall P s -> Forall P (stripEdgeDashes s).
Proof.
  intros Hs. unfold stripEdgeDashes.
  set (rest := match s with
               | [] => []
               | c :: s' => if (c =? dash)%N then s' else s
               end).
  assert (Hrest : Forall P rest).
  { subst rest. destruct Hs as [| c s' Hc Hs']; [constructor |].
    destruct (c =? dash)%N; [exact Hs' | constructor; assumption]. }
  clearbody rest.
  destruct (rev rest) as [| c r] eqn:Hrev; [exact Hrest |].
  destruct (c =? dash)%N; [| exact Hrest].
  apply Forall_rev.
  assert (Hall : Forall P (rev rest)) by (apply Forall_rev; exact Hrest).
  rewrite Hrev in Hall. inversion Hall; assumption.
Qed.

Lemma cleanTitle_safe (t : jsstring) :
  Forall (fun c => isSafeNameChar c = true) (cleanTitle t).
Proof.
  unfold cleanTitle.
  apply stripEdgeDashes_Forall.
  apply replaceRunsFrom_Forall; [repeat constructor |].
  apply Forall_forall. intros c Hc _. revert c Hc. apply Forall_forall.
  apply replaceRunsFrom_Forall; [repeat constructor |].
  eapply Forall_impl.
  - apply (replaceEach_Forall (fun c => isFsHostile c = false) isFsHostile
             (lit "-") t); [repeat constructor | auto].
  - intros c Hh Hw. unfold isSafeNameChar. rewrite Hh, Hw. reflexivity.
Qed.

Lemma truncateTitle_prefix (m h : nat) (s : jsstring) :
  truncateTitle m h s `prefix_of` s.
Proof.
  unfold truncateTitle, substring0.
  destruct (m <? length s); [| reflexivity].
  destruct (lastIndexOf dash (firstn m s)) as [k |].
  - destruct (h <? k).
    + etransitivity; apply prefix_take.
    + apply prefix_take.
  - apply prefix_take.
Qed.

Lemma decimal_safe (w : nat) :
  forall n, Forall (fun c => isSafeNameChar c = true) (decimal w n).
Proof.
  induction w as [| w IH]; intros n; simpl; [constructor |].
  apply Forall_app. split; [apply IH |].
  constructor; [| constructor].
  assert (Hlt : (n mod 10 < 10)%N) by (apply N.mod_lt; discriminate).
  remember (n mod 10)%N as k eqn:Hk. clear Hk.
  assert (Hcases : (k = 0 \/ k = 1 \/ k = 2 \/ k = 3 \/ k = 4 \/ k = 5
                    \/ k = 6 \/ k = 7 \/ k = 8 \/ k = 9)%N) by lia.
  repeat (destruct Hcases as [-> | Hcases]; [reflexivity |]).
  rewrite Hcases. reflexivity.
Qed.

Lemma isoDate_safe (d : DateFields) :
  Forall (fun c => isSafeNameChar c = true) (isoDate d).
Proof.
  unfold isoDate, isoYear.
  apply Forall_app. split.
  - destruct ((0 <=? year d)%Z && (year d <=? 9999)%Z);
      [apply decimal_safe |].
    apply Forall_app. split; [| apply decimal_safe].
    destruct (year d <? 0)%Z; repeat constructor.
  - apply Forall_app. split; [repeat constructor |].
    apply Forall_app. split; [apply decimal_safe |].
    apply Forall_app. split; [repeat constructor | apply decimal_safe].
Qed.

(** X11. Whatever the title, the file name built for a valid date is the
    date, a hyphen and a prefix of the cleaned title, and none of its
    characters is white space or one of the characters that file systems
    refuse. *)
Theorem sanitizeFileName_safe (docTitle : jsstring) (d : DateFields) :
  exists rest,
    sanitizeFileName docTitle (UTC d) = Some (isoDate d ++ lit "-" ++ rest)
    /\ rest `prefix_of` cleanTitle docTitle
    /\ Forall (fun c => isSafeNameChar c = true)
         (isoDate d ++ lit "-" ++ rest).
Proof.
  exists (truncateTitle 36 18 (cleanTitle docTitle)).
  unfold sanitizeFileName. rewrite isoDay_UTC.
  pose proof (truncateTitle_prefix 36 18 (cleanTitle docTitle)) as Hpre.
  repeat split; [exact Hpre |].
  apply Forall_app. split; [apply isoDate_safe |].
  apply Forall_app. split; [repeat constructor |].
  destruct Hpre as [k Hk].
  pose proof (cleanTitle_safe docTitle) as Hsafe.
  rewrite Hk in Hsafe. apply Forall_app in Hsafe. tauto.
Qed.

(** The date of an invalid [Date] cannot be printed: no name is built. *)
Lemma sanitizeFileName_invalid (docTitle : jsstring) :
  sanitizeFileName docTitle InvalidDate = None.
Proof. reflexivity. Qed.

(** ** Header escaping, continued *)

Lemma includesChar_cons (c x : N) (s : jsstring) :
  includesChar c (x :: s) = (c =? x)%N || includesChar c s.
Proof. reflexivity. Qed.

Lemma includesChar_app (c : N) (a b : jsstring) :
  includesChar c (a ++ b) = includesChar c a || includesChar c b.
Proof. unfold includesChar. apply existsb_app. Qed.

Lemma linesIndented_cons (c : N) (s : jsstring) :
  linesIndented (c :: s)
  = (if (c =? nl)%N then startsWith [space; space] s else true)
    && linesIndented s.
Proof. reflexivity. Qed.

Lemma linesIndented_no_nl (s : jsstring) :
  includesChar nl s = false -> linesIndented s = true.
Proof.
  induction s as [| c s IH]; [reflexivity |].
  rewrite includesChar_cons, linesIndented_cons.
  intros H. apply orb_false_iff in H. destruct H as [Hc Hs].
  rewrite N.eqb_sym in Hc. rewrite Hc. simpl. apply IH. exact Hs.
Qed.

Lemma linesIndented_block (s : jsstring) :
  linesIndented (replaceEach (N.eqb nl) (lit "\n  ") s) = true.
Proof.
  induction s as [| c s IH]; [reflexivity |].
  change (replaceEach (N.eqb nl) (lit "\n  ") (c :: s))
    with ((if (nl =? c)%N then [nl; space; space] else [c])
          ++ replaceEach (N.eqb nl) (lit "\n  ") s).
  destruct (nl =? c)%N eqn:Hc.
  - simpl app. rewrite !linesIndented_cons. rewrite IH. reflexivity.
  - simpl app. rewrite linesIndented_cons, N.eqb_sym, Hc, IH. reflexivity.
Qed.

Lemma replaceEach_absent (c : N) (r s : jsstring) :
  includesChar c s = false -> replaceEach (N.eqb c) r s = s.
Proof.
  induction s as [| x s IH]; [reflexivity |].
  rewrite includesChar_cons. intros H.
  apply orb_false_iff in H. destruct H as [Hx Hs].
  change (replaceEach (N.eqb c) r (x :: s))
    with ((if (c =? x)%N then r else [x]) ++ replaceEach (N.eqb c) r s).
  rewrite Hx, IH by exact Hs. reflexivity.
Qed.

(** X12. In the scalar that [escapeYaml] writes every line feed is followed
    by two spaces: no line of a note, a title or a summary starts at the
    first column of the header. *)
Theorem escapeYaml_lines_indented (v : nullable jsstring) :
  linesIndented (escapeYaml v) = true.
Proof.
  unfold escapeYaml.
  destruct (truthy v); simpl negb; cbv iota; [| reflexivity].
  set (s := orEmpty v).
  assert (Hblock : linesIndented
                     (lit "|\n  " ++ replaceEach (N.eqb nl) (lit "\n  ") s)
                   = true).
  { change (lit "|\n  ") with [124%N; nl; space; space]. simpl app.
    rewrite !linesIndented_cons, linesIndented_block. reflexivity. }
  destruct (includesChar nl s) eqn:Hnl; simpl orb; cbv iota;
    [exact Hblock |].
  destruct (testClass isYamlSpecial s); [exact Hblock |].
  destruct (includesChar dquote s) eqn:Hdq.
  - apply linesIndented_no_nl.
    rewrite !includesChar_app, Hnl. reflexivity.
  - destruct (includesChar squote s || edgeBlank s);
      [| apply linesIndented_no_nl; exact Hnl].
    apply linesIndented_no_nl.
    rewrite (replaceEach_absent dquote _ s Hdq).
    rewrite !includesChar_app, Hnl. reflexivity.
Qed.

Lemma replaceRunsFrom_removes (p : N -> bool) (r : jsstring) :
  Forall (fun c => p c = false) r ->
  forall s inRun, Forall (fun c => p c = false) (replaceRunsFrom p r inRun s).
Proof.
  intros Hr s inRun. apply replaceRunsFrom_Forall; [exact Hr |].
  apply Forall_forall. auto.
Qed.

(** White space apart, replacing the runs of white space keeps the
    characters of a text. *)
Lemma includesChar_replaceRunsFrom (p : N -> bool) (r : jsstring) (c : N) :
  p c = false -> includesChar c r = false ->
  forall s inRun,
    includesChar c (replaceRunsFrom p r inRun s) = includesChar c s.
Proof.
  intros Hp Hr. induction s as [| x s IH]; intros inRun; [reflexivity |].
  change (replaceRunsFrom p r inRun (x :: s))
    with (if p x
          then (if inRun then [] else r) ++ replaceRunsFrom p r true s
          else x :: replaceRunsFrom p r false s).
  rewrite includesChar_cons.
  destruct (p x) eqn:Hpx.
  - rewrite includesChar_app, IH.
    assert (Hcx : (c =? x)%N = false).
    { apply N.eqb_neq. intros ->. congruence. }
    rewrite Hcx. destruct inRun; [reflexivity |]. rewrite Hr. reflexivity.
  - rewrite includesChar_cons, IH. reflexivity.
Qed.

(** X13. An escaped tag is the tag with every run of white space replaced
    by one hyphen, between two quotes: single quotes exactly when the tag
    holds a double quote, double quotes otherwise.  It holds no white space,
    so it stays on the line of its list item, and between double quotes
    there is no double quote. *)
Theorem escapeTag_one_line (t : jsstring) :
  Forall (fun c => isWhiteSpace c = false) (escapeTag t)
  /\ exists body,
       body = replaceRuns isWhiteSpace (lit "-") t
       /\ includesChar dquote body = includesChar dquote t
       /\ escapeTag t
          = (if includesChar dquote t
             then [squote] ++ body ++ [squote]
             else [dquote] ++ body ++ [dquote]).
Proof.
  pose proof (replaceRunsFrom_removes isWhiteSpace (lit "-")
                ltac:(repeat constructor) t false) as Hbody.
  fold (replaceRuns isWhiteSpace (lit "-") t) in Hbody.
  assert (Hsame : includesChar dquote (replaceRuns isWhiteSpace (lit "-") t)
                  = includesChar dquote t).
  { unfold replaceRuns.
    apply includesChar_replaceRunsFrom; reflexivity. }
  assert (Hform : escapeTag t
                  = (if includesChar dquote t
                     then [squote] ++ replaceRuns isWhiteSpace (lit "-") t
                          ++ [squote]
                     else [dquote] ++ replaceRuns isWhiteSpace (lit "-") t
                          ++ [dquote])).
  { unfold escapeTag. cbv zeta. rewrite Hsame. reflexivity. }
  split.
  - rewrite Hform.
    destruct (includesChar dquote t);
      (apply Forall_app; split; [repeat constructor |];
       apply Forall_app; split; [exact Hbody | repeat constructor]).
  - exists (replaceRuns isWhiteSpace (lit "-") t).
    split; [reflexivity |]. split; [exact Hsame | exact Hform].
Qed.

(** ** Header escaping: nothing is lost *)

Lemma replaceEach_cons (p : N -> bool) (r : jsstring) (c : N) (s : jsstring) :
  replaceEach p r (c :: s) = (if p c then r else [c]) ++ replaceEach p r s.
Proof. reflexivity. Qed.

Lemma indent_inj (s1 : jsstring) :
  forall s2,
    replaceEach (N.eqb nl) (lit "\n  ") s1
    = replaceEach (N.eqb nl) (lit "\n  ") s2 ->
    s1 = s2.
Proof.
  change (lit "\n  ") with [nl; space; space].
  induction s1 as [| c1 s1 IH]; intros [| c2 s2] H.
  - reflexivity.
  - rewrite replaceEach_cons in H. destruct (nl =? c2)%N; discriminate H.
  - rewrite replaceEach_cons in H. destruct (nl =? c1)%N; discriminate H.
  - rewrite !replaceEach_cons in H.
    destruct (N.eqb_spec nl c1) as [E1 | E1];
      destruct (N.eqb_spec nl c2) as [E2 | E2]; simpl in H.
    + injection H as H. subst. f_equal. apply IH. exact H.
    + injection H as Hc _. congruence.
    + injection H as Hc _. congruence.
    + injection H as Hc H. subst. f_equal. apply IH. exact H.
Qed.

Lemma escapeYaml_form (c : N) (r : jsstring) :
  escapeYaml (Val (c :: r))
  = 124%N :: nl :: space :: space
      :: replaceEach (N.eqb nl) (lit "\n  ") (c :: r)
  \/ escapeYaml (Val (c :: r)) = squote :: (c :: r) ++ [squote]
  \/ escapeYaml (Val (c :: r)) = dquote :: (c :: r) ++ [dquote]
  \/ (escapeYaml (Val (c :: r)) = c :: r
      /\ c <> 124%N /\ c <> squote /\ c <> dquote).
Proof.
  unfold escapeYaml.
  change (negb (truthy (Val (c :: r)))) with false. cbv iota.
  change (orEmpty (Val (c :: r))) with (c :: r).
  set (s := c :: r).
  destruct (includesChar nl s) eqn:Hnl; [left; reflexivity |].
  rewrite orb_false_l.
  destruct (testClass isYamlSpecial s) eqn:Hsp; [left; reflexivity |].
  destruct (includesChar dquote s) eqn:Hdq; [right; left; reflexivity |].
  destruct (includesChar squote s || edgeBlank s) eqn:Hsq.
  - right. right. left.
    rewrite (replaceEach_absent dquote _ s Hdq). reflexivity.
  - right. right. right. split; [reflexivity |].
    apply orb_false_iff in Hsq. destruct Hsq as [Hsq _].
    subst s. rewrite includesChar_cons in Hdq, Hsq.
    apply orb_false_iff in Hdq, Hsq.
    destruct Hdq as [Hdq _]. destruct Hsq as [Hsq _].
    apply N.eqb_neq in Hdq, Hsq.
    change (testClass isYamlSpecial (c :: r))
      with (isYamlSpecial c || testClass isYamlSpecial r) in Hsp.
    apply orb_false_iff in Hsp. destruct Hsp as [Hsp _].
    repeat split; try congruence.
    intros ->. discriminate Hsp.
Qed.

Lemma escapeYaml_truthy_nonempty (c : N) (r : jsstring) :
  escapeYaml (Val (c :: r)) <> [].
Proof.
  destruct (escapeYaml_form c r) as [H | [H | [H | [H _]]]];
    rewrite H; discriminate.
Qed.

(** X14. The escaping loses nothing: two values with the same header
    scalar have the same text (absent values and the empty string all count
    as the empty text). *)
Theorem escapeYaml_injective (v1 v2 : nullable jsstring) :
  escapeYaml v1 = escapeYaml v2 -> orEmpty v1 = orEmpty v2.
Proof.
  assert (Hfalsy : forall v, truthy v = false -> escapeYaml v = []
                                                 /\ orEmpty v = []).
  { intros [| | [| c r]] H; try discriminate H; split; reflexivity. }
  assert (Hform : forall v, truthy v = true ->
                            exists c r, v = Val (c :: r)).
  { intros [| | [| c r]] H; try discriminate H. eauto. }
  destruct (truthy v1) eqn:T1; destruct (truthy v2) eqn:T2.
  - destruct (Hform v1 T1) as (c1 & r1 & ->).
    destruct (Hform v2 T2) as (c2 & r2 & ->).
    simpl orEmpty. intros H.
    destruct (escapeYaml_form c1 r1)
      as [H1 | [H1 | [H1 | (H1 & A1 & B1 & C1)]]];
      destruct (escapeYaml_form c2 r2)
        as [H2 | [H2 | [H2 | (H2 & A2 & B2 & C2)]]];
      rewrite H1, H2 in H; try discriminate H.
    + injection H as H. apply indent_inj. exact H.
    + injection H as Hc _. congruence.
    + injection H as Hc Hr. apply app_inv_tail in Hr. congruence.
    + injection H as Hc _. unfold squote in *. congruence.
    + injection H as Hc Hr. apply app_inv_tail in Hr. congruence.
    + injection H as Hc _. unfold dquote in *. congruence.
    + injection H as Hc _. congruence.
    + injection H as Hc _. unfold squote in *. congruence.
    + injection H as Hc _. unfold dquote in *. congruence.
    + exact H.
  - destruct (Hform v1 T1) as (c1 & r1 & ->).
    destruct (Hfalsy v2 T2) as [E2 _]. rewrite E2. intros H.
    exfalso. exact (escapeYaml_truthy_nonempty c1 r1 H).
  - destruct (Hform v2 T2) as (c2 & r2 & ->).
    destruct (Hfalsy v1 T1) as [E1 _]. rewrite E1. intros H.
    exfalso. symmetry in H. exact (escapeYaml_truthy_nonempty c2 r2 H).
  - destruct (Hfalsy v1 T1) as [_ E1]. destruct (Hfalsy v2 T2) as [_ E2].
    intros _. rewrite E1, E2. reflexivity.
Qed.

Lemma escapeYaml_injective_witness :
  orEmpty (Val (lit "a: b")) = orEmpty (Val (lit "a: b"))
  /\ orEmpty Null = orEmpty (Val []).
Proof.
  split.
  - apply (escapeYaml_injective (Val (lit "a: b")) (Val (lit "a: b"))).
    reflexivity.
  - apply (escapeYaml_injective Null (Val [])). reflexivity.
Defined.

(** ** Title resolver, continued *)

Lemma takeWhile_Forall (p : N -> bool) (s : jsstring) :
  Forall (fun c => p c = true) (takeWhile p s).
Proof.
  induction s as [| c s IH]; simpl; [constructor |].
  destruct (p c) eqn:Hc; constructor; assumption.
Qed.

Lemma takeWhile_prefix (p : N -> bool) (s : jsstring) :
  takeWhile p s `prefix_of` s.
Proof.
  induction s as [| c s IH]; simpl; [reflexivity |].
  destruct (p c); [apply prefix_cons; exact IH | apply prefix_nil].
Qed.

(** X15. The title taken from a text is one line of at most 100 characters:
    it holds no line feed, and it is either the whole first line or its
    first 97 characters followed by three dots. *)
Theorem extractTitleFromText_bounded (t : jsstring) :
  length (extractTitleFromText t) <= 100
  /\ includesChar nl (extractTitleFromText t) = false
  /\ (extractTitleFromText t = splitHead nl t
      \/ (100 < length (splitHead nl t)
          /\ extractTitleFromText t
             = firstn 97 (splitHead nl t) ++ lit "..."
          /\ length (extractTitleFromText t) = 100)).
Proof.
  unfold extractTitleFromText, substring0.
  assert (Hline : includesChar nl (splitHead nl t) = false).
  { unfold splitHead, includesChar.
    apply not_true_is_false. intros Hex.
    apply existsb_exists in Hex. destruct Hex as [c [Hin Hc]].
    pose proof (takeWhile_Forall (fun d => negb (d =? nl)%N) t) as Hall.
    rewrite Forall_forall in Hall.
    apply list_elem_of_In in Hin. specialize (Hall c Hin). simpl in Hall.
    apply N.eqb_eq in Hc. subst c. rewrite N.eqb_refl in Hall.
    discriminate. }
  destruct (length (splitHead nl t) <=? 100) eqn:Hlen.
  - apply Nat.leb_le in Hlen. auto.
  - apply Nat.leb_gt in Hlen.
    assert (Htotal : length (firstn 97 (splitHead nl t) ++ lit "...") = 100).
    { rewrite length_app, length_firstn, Nat.min_l by lia. reflexivity. }
    split; [lia |]. split; [| right; auto].
    rewrite includesChar_app. apply orb_false_iff. split; [| reflexivity].
    unfold includesChar in *.
    apply not_true_is_false. intros Hex.
    apply existsb_exists in Hex. destruct Hex as [c [Hin Hc]].
    assert (Hin' : In c (splitHead nl t)).
    { rewrite <- (firstn_skipn 97 (splitHead nl t)). apply in_or_app. auto. }
    assert (Hyes : existsb (N.eqb nl) (splitHead nl t) = true)
      by (apply existsb_exists; eauto).
    congruence.
Qed.

Lemma stripExtension_prefix (s : jsstring) : stripExtension s `prefix_of` s.
Proof.
  induction s as [| c s IH]; simpl; [reflexivity |].
  match goal with
  | |- context [if ?b then _ else _] => destruct b
  end; [apply prefix_nil | apply prefix_cons; exact IH].
Qed.

(** X16. Stripping the extension only cuts the end of a name off, and the
    whole name goes exactly when it is a dot followed by one or more
    characters other than dots and slashes (as in [.png]); the empty name
    stays empty. *)
Theorem stripExtension_spec (s : jsstring) :
  stripExtension s `prefix_of` s
  /\ (stripExtension s = []
      <-> s = []
          \/ exists ext,
               s = dot :: ext /\ ext <> []
               /\ Forall (fun d => d <> slash /\ d <> dot) ext).
Proof.
  split; [apply stripExtension_prefix |].
  destruct s as [| c s]; simpl.
  - split; auto.
  - destruct (c =? dot)%N eqn:Hdot; simpl.
    + apply N.eqb_eq in Hdot. subst c.
      destruct s as [| x s]; simpl.
      * split; [discriminate |].
        intros [H | [ext (Heq & Hne & _)]]; [discriminate |].
        injection Heq as <-. congruence.
      * destruct (negb ((x =? slash)%N || (x =? dot)%N)
                  && forallb
                       (fun d => negb ((d =? slash)%N || (d =? dot)%N)) s)
          eqn:Hall.
        -- split; [| reflexivity]. intros _. right. exists (x :: s).
           split; [reflexivity |]. split; [discriminate |].
           change (forallb
                     (fun d => negb ((d =? slash)%N || (d =? dot)%N))
                     (x :: s) = true) in Hall.
           rewrite forallb_forall in Hall. apply Forall_forall.
           intros d Hd. apply list_elem_of_In in Hd.
           specialize (Hall d Hd). apply negb_true_iff in Hall.
           apply orb_false_iff in Hall. destruct Hall as [H1 H2].
           apply N.eqb_neq in H1, H2. auto.
        -- split; [discriminate |].
           intros [H | [ext (Heq & _ & Hext)]]; [discriminate |].
           injection Heq as <-. exfalso.
           assert (Hyes : forallb
                     (fun d => negb ((d =? slash)%N || (d =? dot)%N))
                     (x :: s) = true).
           { apply forallb_forall. intros d Hd.
             rewrite Forall_forall in Hext. apply list_elem_of_In in Hd.
             destruct (Hext d Hd) as [H1 H2].
             apply N.eqb_neq in H1, H2. rewrite H1, H2. reflexivity. }
           simpl in Hyes. congruence.
    + split; [discriminate |].
      intros [H | [ext (Heq & _)]]; [discriminate |].
      injection Heq as -> _. rewrite N.eqb_refl in Hdot. discriminate.
Qed.



(** X18. For a text bookmark without a title of its own and with a valid
    date, the resolved title is empty exactly when the text begins with a
    line feed; in every other case the title is the first line of the text,
    cut to 100 characters, or the fallback. *)
Theorem getBookmarkTitle_text_empty_iff
    (parseURL : jsstring -> option ParsedURL) (bookmark : HoarderBookmark)
    (d : DateFields) :
  createdAt bookmark = UTC d ->
  truthy (title bookmark) = false ->
  type (content bookmark) = text ->
  (getBookmarkTitle parseURL bookmark = Some []
   <-> startsWith [nl] (orEmpty (contentText (content bookmark))) = true).
Proof.
  intros Hdate Htitle Htype. unfold getBookmarkTitle.
  rewrite Htitle, Htype.
  destruct (contentText (content bookmark)) as [| | [| c s]]; simpl truthy;
    cbv iota; simpl orEmpty.
  1-3: unfold fallbackTitle; rewrite Hdate, isoDay_UTC;
       change (lit "Bookmark-") with (66%N :: lit "ookmark-");
       split; discriminate.
  unfold extractTitleFromText, splitHead, substring0.
  change (startsWith [nl] (c :: s)) with ((nl =? c)%N && true).
  rewrite andb_true_r, (N.eqb_sym nl c).
  change (takeWhile (fun d0 => negb (d0 =? nl)%N) (c :: s))
    with (if negb (c =? nl)%N
          then c :: takeWhile (fun d0 => negb (d0 =? nl)%N) s else []).
  destruct (c =? nl)%N; simpl negb; cbv iota.
  - split; reflexivity.
  - split; [| discriminate].
    destruct (length (c :: takeWhile (fun d0 => negb (d0 =? nl)%N) s) <=? 100).
    + discriminate.
    + intros H. injection H. intros H'. discriminate H'.
Qed.

Lemma getBookmarkTitle_text_empty_iff_witness :
  getBookmarkTitle (fun _ => None)
    (Sample.textBookmark (lit "\nhello") Null) = Some []
  <-> startsWith [nl] (lit "\nhello") = true.
Proof.
  apply (getBookmarkTitle_text_empty_iff (fun _ => None)
           (Sample.textBookmark (lit "\nhello") Null)
           (mkDate 2024 1 15 10 30 0 0)); reflexivity.
Defined.

(** ** Notes extractor, continued *)

Lemma dropWhile_suffix (p : N -> bool) (s : jsstring) :
  exists a, s = a ++ dropWhile p s.
Proof.
  induction s as [| c s [a Ha]]; simpl; [exists []; reflexivity |].
  destruct (p c); [| exists []; reflexivity].
  exists (c :: a). simpl. f_equal. exact Ha.
Qed.

Lemma dropWhile_head (p : N -> bool) (s : jsstring) :
  match dropWhile p s with
  | [] => True
  | c :: _ => p c = false
  end.
Proof.
  induction s as [| c s IH]; simpl; [exact I |].
  destruct (p c) eqn:Hc; [exact IH | exact Hc].
Qed.

Lemma dropWhile_fixed (p : N -> bool) (s : jsstring) :
  match s with [] => True | c :: _ => p c = false end ->
  dropWhile p s = s.
Proof.
  destruct s as [| c s]; simpl; [reflexivity |]. intros ->. reflexivity.
Qed.

(** The text that [trim] keeps, between what it drops on both sides. *)
Lemma trim_middle (s : jsstring) : exists a b, s = a ++ trim s ++ b.
Proof.
  unfold trim.
  destruct (dropWhile_suffix isWhiteSpace s) as [a Ha].
  destruct (dropWhile_suffix isWhiteSpace (rev (dropWhile isWhiteSpace s)))
    as [b Hb].
  exists a, (rev b).
  rewrite Ha at 1. f_equal.
  rewrite <- (rev_involutive (dropWhile isWhiteSpace s)) at 1.
  rewrite Hb at 1. rewrite rev_app_distr. reflexivity.
Qed.

Lemma trim_idempotent (s : jsstring) : trim (trim s) = trim s.
Proof.
  unfold trim.
  set (t := dropWhile isWhiteSpace s).
  set (u := dropWhile isWhiteSpace (rev t)).
  assert (Hu : match u with [] => True | c :: _ => isWhiteSpace c = false end)
    by apply dropWhile_head.
  assert (Ht : match t with [] => True | c :: _ => isWhiteSpace c = false end)
    by apply dropWhile_head.
  assert (Hfront : dropWhile isWhiteSpace (rev u) = rev u).
  { apply dropWhile_fixed.
    destruct (dropWhile_suffix isWhiteSpace (rev t)) as [a Ha].
    fold u in Ha.
    destruct (rev u) as [| c r] eqn:Hr; [exact I |].
    assert (Hrev : t = rev u ++ rev a).
    { rewrite <- (rev_involutive t), Ha, rev_app_distr. reflexivity. }
    rewrite Hr in Hrev. rewrite Hrev in Ht. exact Ht. }
  rewrite Hfront, rev_involutive.
  rewrite (dropWhile_fixed isWhiteSpace u Hu). reflexivity.
Qed.

Lemma beginsHeaderOrLink_app (a b : jsstring) :
  beginsHeaderOrLink a = true -> beginsHeaderOrLink (a ++ b) = true.
Proof.
  unfold beginsHeaderOrLink.
  change (lit "##") with [hash; hash]. change (lit "[") with [lbracket].
  destruct a as [| x [| y a]]; simpl app; startsWith_steps;
    try discriminate.
  - rewrite andb_false_r. simpl. intros H. rewrite H. apply orb_true_r.
  - intros H. exact H.
Qed.

Lemma laterLineBegins_app (a b : jsstring) :
  laterLineBegins (a ++ b) = false ->
  laterLineBegins a = false /\ laterLineBegins b = false.
Proof.
  induction a as [| c a IH]; simpl app; intros H; [auto |].
  change (laterLineBegins (c :: a ++ b))
    with (((c =? nl)%N && beginsHeaderOrLink (a ++ b))
          || laterLineBegins (a ++ b)) in H.
  change (laterLineBegins (c :: a))
    with (((c =? nl)%N && beginsHeaderOrLink a) || laterLineBegins a).
  apply orb_false_iff in H. destruct H as [Hc Hrest].
  destruct (IH Hrest) as [Ha Hb]. split; [| exact Hb].
  rewrite Ha, orb_false_r.
  destruct (c =? nl)%N; [| reflexivity]. simpl in *.
  destruct (beginsHeaderOrLink a) eqn:Hbegin; [| reflexivity].
  rewrite (beginsHeaderOrLink_app a b Hbegin) in Hc. discriminate.
Qed.

Lemma capture_no_boundary (s : jsstring) :
  laterLineBegins (captureUntilBoundary s) = false.
Proof.
  induction s as [| c s IH]; [reflexivity |].
  change (captureUntilBoundary (c :: s))
    with (if atBoundary (c :: s) then [] else c :: captureUntilBoundary s).
  destruct (atBoundary (c :: s)) eqn:Hb; [reflexivity |].
  change (laterLineBegins (c :: captureUntilBoundary s))
    with (((c =? nl)%N && beginsHeaderOrLink (captureUntilBoundary s))
          || laterLineBegins (captureUntilBoundary s)).
  rewrite IH, orb_false_r.
  rewrite atBoundary_cons in Hb.
  destruct (c =? nl)%N; [| reflexivity]. simpl in *.
  destruct (beginsHeaderOrLink (captureUntilBoundary s)) eqn:Hcap;
    [| reflexivity].
  (* the capture is a prefix of the text *)
  assert (Hpre : exists b, s = captureUntilBoundary s ++ b).
  { clear. induction s as [| x s [b Hb]]; [exists []; reflexivity |].
    change (captureUntilBoundary (x :: s))
      with (if atBoundary (x :: s) then [] else x :: captureUntilBoundary s).
    destruct (atBoundary (x :: s)); [exists (x :: s); reflexivity |].
    exists b. simpl. f_equal. exact Hb. }
  destruct Hpre as [b Hpre].
  rewrite Hpre in Hb at 1.
  rewrite (beginsHeaderOrLink_app _ b Hcap) in Hb. discriminate.
Qed.

(** X19. What the extractor returns is trimmed, and none of its lines after
    the first begins a section header or a link: the capture stops before
    the first such line. *)
Theorem extractNotesSection_clean (content notes : jsstring) :
  extractNotesSection content = Some notes ->
  trim notes = notes /\ laterLineBegins notes = false.
Proof.
  unfold extractNotesSection.
  destruct (afterFirst (lit "## Notes\n\n") content) as [rest |];
    [| discriminate].
  intros [= <-]. split; [apply trim_idempotent |].
  destruct (trim_middle (captureUntilBoundary rest)) as [a [b Hmid]].
  pose proof (capture_no_boundary rest) as Hcap.
  rewrite Hmid in Hcap.
  apply laterLineBegins_app in Hcap. destruct Hcap as [_ Hcap].
  apply laterLineBegins_app in Hcap. tauto.
Qed.

Lemma extractNotesSection_clean_witness :
  trim (lit "first\n- second") = lit "first\n- second"
  /\ laterLineBegins (lit "first\n- second") = false.
Proof.
  apply (extractNotesSection_clean
           (lit "# T\n\n## Notes\n\n  first\n- second \n\n## More\n\nx")).
  reflexivity.
Defined.

Lemma occurs_written (m a b : jsstring) :
  m <> [] -> occurs m (a ++ m ++ b) = true.
Proof.
  intros Hm. induction a as [| c a IH].
  - simpl app. unfold occurs. rewrite (afterFirst_at_start m b Hm).
    reflexivity.
  - simpl app. rewrite occurs_cons, IH. apply orb_true_r.
Qed.

(** X20. A rendered document always holds a Notes section: the extractor
    never answers [null] on the output of the renderer. *)
Theorem rendered_has_notes (toLocaleDateString : JSDate -> jsstring)
    (st : HoarderSettings) (bookmark : HoarderBookmark) (docTitle : jsstring)
    (highlights : option (list HoarderHighlight)) (processed : ProcessedAssets)
    (doc : jsstring) :
  formatBookmarkAsMarkdown toLocaleDateString st bookmark docTitle highlights
    processed = Some doc ->
  exists notes, extractNotesSection doc = Some notes.
Proof.
  unfold formatBookmarkAsMarkdown.
  destruct (contentBeforeNotes toLocaleDateString st bookmark docTitle
              highlights processed) as [before |]; [| discriminate].
  intros [= <-]. unfold extractNotesSection.
  assert (Hocc : occurs (lit "## Notes\n\n")
                   (before ++ notesSection bookmark
                    ++ linksSection st bookmark) = true).
  { unfold notesSection.
    change (lit "\n## Notes\n\n") with ([nl] ++ lit "## Notes\n\n").
    replace (before
             ++ (([nl] ++ lit "## Notes\n\n") ++ orEmpty (note bookmark)
                 ++ lit "\n")
             ++ linksSection st bookmark)
      with ((before ++ [nl]) ++ lit "## Notes\n\n"
            ++ (orEmpty (note bookmark) ++ lit "\n"
                ++ linksSection st bookmark))
      by (rewrite <- !app_assoc; reflexivity).
    apply occurs_written. discriminate. }
  unfold occurs in Hocc.
  destruct (afterFirst (lit "## Notes\n\n") _); [eauto | discriminate].
Qed.

Lemma rendered_has_notes_witness :
  exists notes,
    extractNotesSection
      (lit "---\nbookmark_id: " ++ [dquote] ++ lit "b1" ++ [dquote]
       ++ lit "\nurl: \ntitle: T\ndate: 2024-01-15T10:30:00.000Z\n"
       ++ lit "tags:\n  - \nnote: \noriginal_note: \nsummary: \n\n---\n"
       ++ lit "\n# T\n\n## Description\n\nhello\n\n## Notes\n\n\n"
       ++ lit "\n[View in Hoarder]"
       ++ lit "(https://api.hoarder.app/dashboard/preview/b1)")
    = Some notes.
Proof.
  apply (rendered_has_notes Sample.longDate Sample.pluginSettings
           (Sample.textBookmark (lit "hello") Null) (lit "T") None
           Sample.noAssets).
  vm_compute. reflexivity.
Defined.

(** X21. Rendering fails exactly on an invalid date: the creation date, or
    a modification date that is present. *)
Theorem formatBookmarkAsMarkdown_fails_iff
    (toLocaleDateString : JSDate -> jsstring) (st : HoarderSettings)
    (bookmark : HoarderBookmark) (docTitle : jsstring)
    (highlights : option (list HoarderHighlight))
    (processed : ProcessedAssets) :
  formatBookmarkAsMarkdown toLocaleDateString st bookmark docTitle highlights
    processed = None
  <-> createdAt bookmark = InvalidDate
      \/ modifiedAt bookmark = Some InvalidDate.
Proof.
  unfold formatBookmarkAsMarkdown, contentBeforeNotes, renderHeader.
  destruct (createdAt bookmark) as [| d]; simpl toISOString.
  - split; auto.
  - destruct (modifiedAt bookmark) as [[| m] |]; simpl toISOString.
    + split; auto.
    + split; [discriminate |]. intros [H | H]; discriminate.
    + split; [discriminate |]. intros [H | H]; discriminate.
Qed.

(** ** The sync pass, continued *)

(** X22. A pass that starts always releases the flag and resets the count
    of skipped files, in whatever state and with whatever outcome its body
    ends; an exception of the body becomes a failed result that carries its
    message, and the effects already performed stay in the trace. *)
Theorem syncBookmarks_releases_flag
    (runPass : PluginState -> PassOutcome * PluginState * list Effect)
    (st : PluginState) :
  isSyncing st = false ->
  apiKey (settings st) <> [] ->
  exists outcome st3 e2 result st' started,
    runPass (resetSkipped (fst (setSyncing true st))) = (outcome, st3, e2)
    /\ syncBookmarks runPass st
       = (result, st',
          started ++ [EventTrigger (lit "sync-state-change") true] ++ e2
          ++ (match outcome with
              | Completed _ => []
              | Threw _ => [ConsoleError (lit "Error syncing bookmarks:")]
              end)
          ++ [EventTrigger (lit "sync-state-change") false])
    /\ isSyncing st' = false /\ skippedFiles st' = 0
    /\ settings st' = settings st3
    /\ result
       = match outcome with
         | Completed r => r
         | Threw msg =>
             {| success := false; message := lit "Error syncing: " ++ msg |}
         end.
Proof.
  intros Hidle Hkey.
  destruct (runPass (resetSkipped (fst (setSyncing true st))))
    as [[outcome st3] e2] eqn:Hrun.
  exists outcome, st3, e2.
  cbv beta iota zeta delta [setSyncing fst] in Hrun.
  unfold syncBookmarks. rewrite Hidle.
  destruct (apiKey (settings st)) as [| k ks] eqn:Hk; [congruence |].
  simpl isEmpty. cbv beta iota zeta delta [setSyncing]. rewrite Hrun.
  destruct outcome as [r | msg]; do 3 eexists;
    (split; [reflexivity |]); (split; [reflexivity |]); auto.
Qed.

Lemma syncBookmarks_releases_flag_witness :
  exists outcome st3 e2 result st' started,
    Sample.eagerPass
      (resetSkipped (fst (setSyncing true Sample.idlePlugin)))
    = (outcome, st3, e2)
    /\ syncBookmarks Sample.eagerPass Sample.idlePlugin
       = (result, st',
          started ++ [EventTrigger (lit "sync-state-change") true] ++ e2
          ++ (match outcome with
              | Completed _ => []
              | Threw _ => [ConsoleError (lit "Error syncing bookmarks:")]
              end)
          ++ [EventTrigger (lit "sync-state-change") false])
    /\ isSyncing st' = false /\ skippedFiles st' = 0
    /\ settings st' = settings st3
    /\ result
       = match outcome with
         | Completed r => r
         | Threw msg =>
             {| success := false; message := lit "Error syncing: " ++ msg |}
         end.
Proof.
  apply (syncBookmarks_releases_flag Sample.eagerPass Sample.idlePlugin).
  - reflexivity.
  - discriminate.
Defined.

(** ** Highlights by bookmark *)

Lemma groupStep_lookup
    (acc : gmap jsstring (list HoarderHighlight) * gset jsstring)
    (h : HoarderHighlight) (key : jsstring) :
  highlightsOf (fst (groupStep acc h)) key
  = highlightsOf (fst acc) key
    ++ (if bool_decide (highlightBookmarkId h = key) then [h] else []).
Proof.
  unfold groupStep, highlightsOf. simpl fst.
  destruct (bool_decide_reflect (highlightBookmarkId h = key)) as [E | E].
  - subst key. rewrite lookup_insert_eq. simpl.
    destruct (bool_decide_reflect (is_Some (acc.1 !! highlightBookmarkId h)))
      as [Hs | Hn].
    + reflexivity.
    + rewrite lookup_insert_eq. simpl.
      destruct (acc.1 !! highlightBookmarkId h) eqn:Hl; [| reflexivity].
      exfalso. apply Hn. eauto.
  - rewrite lookup_insert_ne by exact E.
    destruct (bool_decide (is_Some (acc.1 !! highlightBookmarkId h))).
    + rewrite app_nil_r. reflexivity.
    + rewrite lookup_insert_ne by exact E. rewrite app_nil_r. reflexivity.
Qed.

Lemma fold_groupStep_lookup (l : list HoarderHighlight) (key : jsstring) :
  forall acc,
    highlightsOf (fst (fold_left groupStep l acc)) key
    = highlightsOf (fst acc) key
      ++ List.filter
           (fun h => bool_decide (highlightBookmarkId h = key)) l.
Proof.
  induction l as [| h l IH]; intros acc; simpl.
  - rewrite app_nil_r. reflexivity.
  - rewrite IH, groupStep_lookup, <- app_assoc.
    destruct (bool_decide (highlightBookmarkId h = key)); reflexivity.
Qed.

Lemma fold_groupStep_ids (l : list HoarderHighlight) (key : jsstring) :
  forall acc,
    key ∈ snd (fold_left groupStep l acc)
    <-> key ∈ snd acc \/ exists h, In h l /\ highlightBookmarkId h = key.
Proof.
  induction l as [| h l IH]; intros acc; simpl.
  - split; [auto | intros [H | [h [[] _]]]; exact H].
  - rewrite IH.
    change (snd (groupStep acc h))
      with ({[highlightBookmarkId h]} ∪ snd acc).
    rewrite elem_of_union, elem_of_singleton. split.
    + intros [[E | H] | [h' [Hin E]]]; eauto.
    + intros [H | [h' [[E | Hin] Hk]]]; subst; eauto.
Qed.

(** X23. Grouping loses and reorders nothing: the highlights handed to the
    renderer for a bookmark are exactly the highlights of the listing that
    name this bookmark, in the order of the listing, and the set of ids
    holds exactly the bookmarks that have one. *)
Theorem groupHighlights_spec (allHighlights : list HoarderHighlight)
    (key : jsstring) :
  highlightsOf (fst (groupHighlights allHighlights)) key
  = List.filter (fun h => bool_decide (highlightBookmarkId h = key))
      allHighlights
  /\ (key ∈ snd (groupHighlights allHighlights)
      <-> highlightsOf (fst (groupHighlights allHighlights)) key <> []).
Proof.
  unfold groupHighlights.
  assert (Hlookup :
    highlightsOf (fst (fold_left groupStep allHighlights (∅, ∅))) key
    = List.filter (fun h => bool_decide (highlightBookmarkId h = key))
        allHighlights).
  { rewrite fold_groupStep_lookup. unfold highlightsOf. simpl fst.
    rewrite lookup_empty. reflexivity. }
  rewrite Hlookup. split; [reflexivity |].
  rewrite fold_groupStep_ids. simpl snd. split.
  - intros [H | [h [Hin Hk]]]; [set_solver |].
    intros Hnil.
    assert (Hf : In h (List.filter
                         (fun h => bool_decide (highlightBookmarkId h = key))
                         allHighlights)).
    { apply filter_In. split; [exact Hin |].
      apply bool_decide_eq_true_2. exact Hk. }
    rewrite Hnil in Hf. exact Hf.
  - intros Hne. right.
    destruct (List.filter
                (fun h => bool_decide (highlightBookmarkId h = key))
                allHighlights) as [| h r] eqn:Hf; [congruence |].
    assert (Hin : In h (h :: r)) by (left; reflexivity).
    rewrite <- Hf in Hin. apply filter_In in Hin. destruct Hin as [Hin Hk].
    apply bool_decide_eq_true_1 in Hk. eauto.
Qed.

(** ** Tagging a document *)

(** X24. Adding the configured tag keeps the tags that were there, in
    their order, makes the tag present, adds no duplicate, and adding it a
    second time changes nothing. *)
Theorem addDeletionTag_spec (newTag : jsstring) (t : FrontmatterTags)
    (result : list jsstring) :
  addDeletionTag newTag t = Some result ->
  tagsAsArray t `prefix_of` result
  /\ newTag ∈ result
  /\ (NoDup (tagsAsArray t) -> NoDup result)
  /\ addDeletionTag newTag (TagsArray result) = Some result.
Proof.
  unfold addDeletionTag.
  destruct (isEmpty newTag) eqn:Hempty; [discriminate |].
  unfold includes.
  destruct (bool_decide_reflect (newTag ∈ tagsAsArray t)) as [Hin | Hout];
    intros [= <-]; simpl tagsAsArray.
  - repeat split; auto.
    rewrite (bool_decide_eq_true_2 _ Hin). reflexivity.
  - assert (Hnew : newTag ∈ tagsAsArray t ++ [newTag]) by set_solver.
    repeat split.
    + apply prefix_app_r. reflexivity.
    + exact Hnew.
    + intros Hnd. apply NoDup_app. repeat split; [exact Hnd | |].
      * intros x Hx Hx'. apply list_elem_of_singleton in Hx'. subst x.
        exact (Hout Hx).
      * apply NoDup_singleton.
    + rewrite (bool_decide_eq_true_2 _ Hnew). reflexivity.
Qed.

Lemma addDeletionTag_spec_witness :
  tagsAsArray (TagsString (lit "inbox"))
    `prefix_of` [lit "inbox"; lit "deleted"]
  /\ lit "deleted" ∈ [lit "inbox"; lit "deleted"]
  /\ (NoDup (tagsAsArray (TagsString (lit "inbox")))
      -> NoDup [lit "inbox"; lit "deleted"])
  /\ addDeletionTag (lit "deleted") (TagsArray [lit "inbox"; lit "deleted"])
     = Some [lit "inbox"; lit "deleted"].
Proof.
  apply (addDeletionTag_spec (lit "deleted") (TagsString (lit "inbox"))).
  reflexivity.
Defined.

(** ** Moving a document to an archive folder *)

Lemma digitsOf_inj (d : Decimal.uint) :
  forall d', digitsOf d = digitsOf d' -> d = d'.
Proof.
  induction d as [| d IH | d IH | d IH | d IH | d IH | d IH | d IH | d IH
                 | d IH | d IH];
    intros d' H; destruct d'; simpl in H; try discriminate H;
    try reflexivity; injection H as H; f_equal; apply IH; exact H.
Qed.

Lemma numberToString_inj (j k : nat) :
  numberToString j = numberToString k -> j = k.
Proof.
  unfold numberToString. intros H.
  apply DecimalNat.Unsigned.to_uint_inj, digitsOf_inj. exact H.
Qed.

Lemma numberedPath_inj (archiveFolder fileName : jsstring) (j k : nat) :
  numberedPath archiveFolder fileName j = numberedPath archiveFolder fileName k
  -> j = k.
Proof.
  unfold numberedPath. intros H.
  do 4 apply app_inv_head in H. apply app_inv_tail in H.
  apply numberToString_inj. exact H.
Qed.

Lemma length_stripMd (fileName : jsstring) :
  length fileName <= length (stripMd fileName) + 3.
Proof.
  unfold stripMd. destruct (endsWith (lit ".md") fileName); [| lia].
  rewrite length_firstn. lia.
Qed.

Lemma numberedPath_not_plain (archiveFolder fileName : jsstring) (k : nat) :
  numberedPath archiveFolder fileName k
  <> archiveFolder ++ lit "/" ++ fileName.
Proof.
  unfold numberedPath. intros H.
  apply (f_equal (@length N)) in H. rewrite !length_app in H.
  pose proof (length_stripMd fileName) as Hlen.
  change (length (lit ".md")) with 3 in H.
  change (length (lit "-")) with 1 in H. lia.
Qed.

(** The search only looks at the path it holds and at the numbered paths
    still to come. *)
Lemma findFreePath_ext (archiveFolder fileName : jsstring) (fuel : nat) :
  forall (X X' : gset jsstring) (path : jsstring) (c : nat),
    (path ∈ X <-> path ∈ X') ->
    (forall k, c <= k ->
       numberedPath archiveFolder fileName k ∈ X
       <-> numberedPath archiveFolder fileName k ∈ X') ->
    findFreePath fuel X archiveFolder fileName path c
    = findFreePath fuel X' archiveFolder fileName path c.
Proof.
  induction fuel as [| fuel IH]; intros X X' path c Hpath Hnum;
    [reflexivity |].
  simpl.
  destruct (bool_decide_reflect (path ∈ X)) as [Hin | Hout];
    destruct (bool_decide_reflect (path ∈ X')) as [Hin' | Hout'];
    try tauto.
  apply IH.
  - apply Hnum. lia.
  - intros k Hk. apply Hnum. lia.
Qed.

Lemma findFreePath_finds (archiveFolder fileName : jsstring) (fuel : nat) :
  forall (X : gset jsstring) (path : jsstring) (c : nat),
    (forall k, c <= k -> numberedPath archiveFolder fileName k <> path) ->
    size X < fuel ->
    exists p,
      findFreePath fuel X archiveFolder fileName path c = Some p
      /\ (p ∉ X)
      /\ (p = path
          \/ (path ∈ X
              /\ exists k,
                   c <= k /\ p = numberedPath archiveFolder fileName k
                   /\ forall j, c <= j < k ->
                        numberedPath archiveFolder fileName j ∈ X)).
Proof.
  induction fuel as [| fuel IH]; intros X path c Hfresh Hsize; [lia |].
  simpl.
  destruct (bool_decide_reflect (path ∈ X)) as [Hin | Hout].
  - assert (Hsub : X ∖ {[path]} ⊂ X)
      by (apply subset_difference_elem_of; exact Hin).
    apply subset_size in Hsub.
    rewrite (findFreePath_ext archiveFolder fileName fuel X (X ∖ {[path]})).
    + destruct (IH (X ∖ {[path]})
                  (numberedPath archiveFolder fileName c) (S c))
        as [p (Hp & Hnew & Hwhich)].
      * intros k Hk E. apply numberedPath_inj in E. lia.
      * lia.
      * exists p. split; [exact Hp |].
        assert (Hnot : p <> path).
        { destruct Hwhich as [-> | (_ & k & Hk & -> & _)];
            apply Hfresh; lia. }
        split.
        { intros Hp'. apply Hnew, elem_of_difference.
          split; [exact Hp' | rewrite elem_of_singleton; exact Hnot]. }
        right. split; [exact Hin |].
        destruct Hwhich as [-> | (Hc & k & Hk & -> & Hbelow)].
        -- exists c. repeat split; [lia |]. intros j Hj. lia.
        -- exists k. repeat split; [lia |]. intros j Hj.
           destruct (decide (j = c)) as [-> | Hne];
             [apply elem_of_difference in Hc; apply Hc |].
           assert (Hj' : S c <= j < k) by lia.
           specialize (Hbelow j Hj').
           apply elem_of_difference in Hbelow. apply Hbelow.
    + assert (Hc : numberedPath archiveFolder fileName c <> path)
        by (apply Hfresh; lia).
      rewrite elem_of_difference, elem_of_singleton. tauto.
    + intros k Hk.
      assert (Hc : numberedPath archiveFolder fileName k <> path)
        by (apply Hfresh; lia).
      rewrite elem_of_difference, elem_of_singleton. tauto.
  - exists path. auto.
Qed.

(** X25. The search for a free name ends within one turn more than the
    vault has paths, and what it returns does not exist in the vault: it is
    the plain path when that is free, and otherwise the numbered path with
    the smallest counter, from 1 up, that is free. *)
Theorem findFreePath_first_free (vault : gset jsstring)
    (archiveFolder fileName : jsstring) (fuel : nat) :
  size vault < fuel ->
  exists p,
    findFreePath fuel vault archiveFolder fileName
      (archiveFolder ++ lit "/" ++ fileName) 1 = Some p
    /\ (p ∉ vault)
    /\ (p = archiveFolder ++ lit "/" ++ fileName
        \/ ((archiveFolder ++ lit "/" ++ fileName) ∈ vault
            /\ exists k,
                 1 <= k /\ p = numberedPath archiveFolder fileName k
                 /\ forall j, 1 <= j < k ->
                      numberedPath archiveFolder fileName j ∈ vault)).
Proof.
  intros Hfuel. apply findFreePath_finds; [| exact Hfuel].
  intros k _. apply numberedPath_not_plain.
Qed.

Lemma findFreePath_first_free_witness :
  exists p,
    findFreePath 3 {[ lit "old/a.md"; lit "old/a-1.md" ]} (lit "old")
      (lit "a.md") (lit "old" ++ lit "/" ++ lit "a.md") 1 = Some p
    /\ (p ∉ ({[ lit "old/a.md"; lit "old/a-1.md" ]} : gset jsstring))
    /\ (p = lit "old" ++ lit "/" ++ lit "a.md"
        \/ ((lit "old" ++ lit "/" ++ lit "a.md")
              ∈ ({[ lit "old/a.md"; lit "old/a-1.md" ]} : gset jsstring)
            /\ exists k,
                 1 <= k /\ p = numberedPath (lit "old") (lit "a.md") k
                 /\ forall j, 1 <= j < k ->
                      numberedPath (lit "old") (lit "a.md") j
                        ∈ ({[ lit "old/a.md"; lit "old/a-1.md" ]}
                            : gset jsstring))).
Proof.
  apply (findFreePath_first_free {[ lit "old/a.md"; lit "old/a-1.md" ]}
           (lit "old") (lit "a.md") 3).
  vm_compute. lia.
Defined.

(** X26. With a folder configured and fuel for two turns more than the
    vault has paths, a move succeeds, its destination did not exist before
    (no document is overwritten), the moved document is there afterwards,
    and every other path of the vault is still there. *)
Theorem moveToArchiveFolder_safe (fuel : nat) (vault : gset jsstring)
    (filePath fileName archiveFolder : jsstring) :
  archiveFolder <> [] ->
  S (size vault) < fuel ->
  exists finalPath vault',
    moveToArchiveFolder fuel vault filePath fileName archiveFolder
    = Moved finalPath vault'
    /\ (finalPath ∉ vault)
    /\ (finalPath ∈ vault')
    /\ forall q, q ∈ vault -> q <> filePath -> q ∈ vault'.
Proof.
  intros Hfolder Hfuel. unfold moveToArchiveFolder.
  destruct archiveFolder as [| a0 ar] eqn:Hf; [congruence |].
  rewrite <- Hf in *. replace (isEmpty archiveFolder) with false
    by (rewrite Hf; reflexivity).
  set (vault1 := if bool_decide (archiveFolder ∈ vault) then vault
                 else {[archiveFolder]} ∪ vault).
  assert (Hsub : vault ⊆ vault1).
  { subst vault1. destruct (bool_decide (archiveFolder ∈ vault));
      [reflexivity | apply union_subseteq_r]. }
  assert (Hsize : size vault1 < fuel).
  { subst vault1. destruct (bool_decide (archiveFolder ∈ vault)); [lia |].
    pose proof (size_union_alt {[archiveFolder]} vault) as Hu.
    rewrite size_singleton in Hu.
    assert (size (vault ∖ {[archiveFolder]}) <= size vault)
      by (apply subseteq_size, subseteq_difference_l; reflexivity).
    lia. }
  destruct (findFreePath_finds archiveFolder fileName fuel vault1
              (archiveFolder ++ lit "/" ++ fileName) 1)
    as [p (Hp & Hnew & Hwhich)].
  - intros k _. apply numberedPath_not_plain.
  - exact Hsize.
  - rewrite Hp. exists p. eexists. split; [reflexivity |].
    split; [| split].
    + intros Hin. apply Hnew, Hsub. exact Hin.
    + apply elem_of_union_l, elem_of_singleton. reflexivity.
    + intros q Hq Hne. apply elem_of_union_r, elem_of_difference.
      split; [apply Hsub; exact Hq |].
      rewrite elem_of_singleton. exact Hne.
Qed.

Lemma moveToArchiveFolder_safe_witness :
  exists finalPath vault',
    moveToArchiveFolder 4 {[ lit "Hoarder/a.md"; lit "old/a.md" ]}
      (lit "Hoarder/a.md") (lit "a.md") (lit "old")
    = Moved finalPath vault'
    /\ (finalPath ∉ ({[ lit "Hoarder/a.md"; lit "old/a.md" ]}
                      : gset jsstring))
    /\ (finalPath ∈ vault')
    /\ forall q,
         q ∈ ({[ lit "Hoarder/a.md"; lit "old/a.md" ]} : gset jsstring) ->
         q <> lit "Hoarder/a.md" -> q ∈ vault'.
Proof.
  apply (moveToArchiveFolder_safe 4 {[ lit "Hoarder/a.md"; lit "old/a.md" ]}
           (lit "Hoarder/a.md") (lit "a.md") (lit "old")).
  - discriminate.
  - vm_compute. lia.
Defined.

(** Without a folder the move is refused. *)
Example moveToArchiveFolder_unconfigured :
  moveToArchiveFolder 4 {[ lit "Hoarder/a.md" ]} (lit "Hoarder/a.md")
    (lit "a.md") []
  = MoveError (lit "Archive folder not configured").
Proof. reflexivity. Qed.

(** ** Tag filtering inside the pass *)

Lemma some_map (p : jsstring -> bool) (g : jsstring -> jsstring)
    (l : list jsstring) :
  some p (List.map g l) = some (fun x => p (g x)) l.
Proof.
  unfold some. induction l as [| x l IH]; simpl; [reflexivity |].
  rewrite IH. reflexivity.
Qed.

(** X27. The filter written in line in the pass decides as
    [shouldIncludeBookmark] does on the lower-cased tags and lists; it
    counts one exclusion exactly when the bookmark is skipped, and counts
    the bookmark as included by tags whenever a non-empty include list is
    met, also when the exclude list then skips it. *)
Theorem filterInPass_agrees (toLowerCase : jsstring -> jsstring)
    (includedTags excludedTags : list jsstring) (bookmark : HoarderBookmark) :
  let f := filterInPass toLowerCase includedTags excludedTags bookmark in
  let r :=
    shouldIncludeBookmark
      (List.map (fun t => toLowerCase (name t)) (tags bookmark))
      (List.map toLowerCase includedTags)
      (List.map toLowerCase excludedTags) (favourited bookmark) in
  proceeds f = include r
  /\ excludedByTags f = (if include r then 0 else 1)
  /\ includedByTags f
     = match reason r with
       | Some missing_included_tag => 0
       | _ => if 0 <? length includedTags then 1 else 0
       end.
Proof.
  cbv zeta. unfold filterInPass, shouldIncludeBookmark.
  rewrite !some_map, !length_map.
  repeat match goal with
         | |- context [if ?b then _ else _] => destruct b eqn:?
         end; simpl; auto; discriminate.
Qed.

(** ** Reconciling an existing document *)

(** The round trip of the notes, for a note whose later lines begin neither
    a header nor a link. *)
Lemma rendered_notes (toLocaleDateString : JSDate -> jsstring)
    (st : HoarderSettings) (bookmark : HoarderBookmark) (docTitle : jsstring)
    (highlights : option (list HoarderHighlight)) (processed : ProcessedAssets)
    (before : jsstring) :
  contentBeforeNotes toLocaleDateString st bookmark docTitle highlights
    processed = Some before ->
  occurs (lit "## Notes\n\n") (before ++ lit "\n## Notes\n") = false ->
  laterLineBegins (orEmpty (note bookmark)) = false ->
  exists doc,
    formatBookmarkAsMarkdown toLocaleDateString st bookmark docTitle
      highlights processed = Some doc
    /\ extractNotesSection doc = Some (trim (orEmpty (note bookmark))).
Proof.
  intros Hbefore Hfirst Hlater.
  unfold formatBookmarkAsMarkdown. rewrite Hbefore.
  eexists. split; [reflexivity |].
  destruct (linksSection_begins st bookmark) as [rest Hlinks].
  rewrite Hlinks. unfold notesSection, extractNotesSection.
  set (n := orEmpty (note bookmark)) in *.
  change (lit "## Notes\n\n") with (lit "## Notes\n" ++ [nl]) in *.
  change (lit "\n## Notes\n") with ([nl] ++ lit "## Notes\n") in Hfirst.
  change (lit "\n## Notes\n\n") with ([nl] ++ lit "## Notes\n" ++ [nl]).
  change (lit "\n") with [nl].
  replace (before
           ++ (([nl] ++ lit "## Notes\n" ++ [nl]) ++ n ++ [nl])
           ++ nl :: lbracket :: rest)
    with ((before ++ [nl]) ++ (lit "## Notes\n" ++ [nl])
          ++ (n ++ nl :: nl :: lbracket :: rest))
    by (rewrite <- !app_assoc; reflexivity).
  rewrite afterFirst_written
    by (rewrite <- app_assoc; exact Hfirst).
  rewrite (capture_note rest n Hlater).
  rewrite trim_snoc by reflexivity. reflexivity.
Qed.

Lemma reconcileNotes_quiet (updateSucceeds : bool)
    (bookmark : HoarderBookmark) (file : ExistingFile) :
  extractNotesSection (contentAtExtract file)
  = Some (orEmpty (note bookmark)) ->
  reconcileNotes updateSucceeds bookmark file = noUpstream bookmark.
Proof.
  intros Hcur. unfold reconcileNotes. rewrite Hcur.
  rewrite (bool_decide_eq_true_2 _ eq_refl).
  destruct (metadataOriginalNote file); [| reflexivity].
  rewrite andb_false_r. reflexivity.
Qed.

(** X28. A pass over an unchanged bookmark and an untouched document does
    nothing more: when the file holds what the renderer produces for the
    bookmark, the note is trimmed and the round trip of the notes applies,
    nothing is sent upstream, the bookmark is left as it is, the file is not
    written and is counted as skipped, whatever the header reports as the
    original note. *)
Theorem reconcileExisting_idempotent
    (toLocaleDateString : JSDate -> jsstring) (st : HoarderSettings)
    (updateSucceeds : bool) (bookmark : HoarderBookmark)
    (docTitle : jsstring) (highlights : list HoarderHighlight)
    (processed : ProcessedAssets) (file : ExistingFile)
    (before doc : jsstring) :
  updateExistingFiles st = true ->
  contentBeforeNotes toLocaleDateString st bookmark docTitle
    (Some highlights) processed = Some before ->
  occurs (lit "## Notes\n\n") (before ++ lit "\n## Notes\n") = false ->
  laterLineBegins (orEmpty (note bookmark)) = false ->
  trim (orEmpty (note bookmark)) = orEmpty (note bookmark) ->
  formatBookmarkAsMarkdown toLocaleDateString st bookmark docTitle
    (Some highlights) processed = Some doc ->
  contentAtExtract file = doc ->
  contentAtCompare file = doc ->
  reconcileExisting toLocaleDateString st updateSucceeds bookmark docTitle
    highlights processed file
  = Some {| upstream := None; bookmarkAfter := bookmark;
            updatedInHoarder := 0; lastSyncedAfter := None;
            originalNoteInit := None; fileWritten := None;
            totalBookmarks := 0; skippedCount := 1 |}.
Proof.
  intros Hupd Hbefore Hfirst Hlater Htrim Hdoc Hextract Hcompare.
  destruct (rendered_notes _ _ _ _ _ _ _ Hbefore Hfirst Hlater)
    as [doc' [Hdoc' Hnotes]].
  rewrite Hdoc in Hdoc'. injection Hdoc' as <-.
  rewrite Htrim in Hnotes.
  unfold reconcileExisting. rewrite Hupd. simpl negb. cbv iota.
  assert (Hstep :
    (if syncNotesToHoarder st
     then reconcileNotes updateSucceeds bookmark file
     else noUpstream bookmark) = noUpstream bookmark).
  { destruct (syncNotesToHoarder st); [| reflexivity].
    apply reconcileNotes_quiet. rewrite Hextract. exact Hnotes. }
  rewrite Hstep. simpl stepBookmark. rewrite Hdoc, Hcompare.
  rewrite (bool_decide_eq_true_2 _ eq_refl). reflexivity.
Qed.

Lemma reconcileExisting_idempotent_witness :
  reconcileExisting Sample.longDate Fixture.updating true
    (Fixture.noted Fixture.remoteNote) (lit "An Article")
    [Sample.highlight1] Sample.noAssets Fixture.untouched
  = Some {| upstream := None;
            bookmarkAfter := Fixture.noted Fixture.remoteNote;
            updatedInHoarder := 0; lastSyncedAfter := None;
            originalNoteInit := None; fileWritten := None;
            totalBookmarks := 0; skippedCount := 1 |}.
Proof.
  refine (reconcileExisting_idempotent Sample.longDate Fixture.updating true
            (Fixture.noted Fixture.remoteNote) (lit "An Article")
            [Sample.highlight1] Sample.noAssets Fixture.untouched
            _ Fixture.remoteDoc _ _ _ _ _ _ _ _).
  - reflexivity.
  - vm_compute. reflexivity.
  - vm_compute. reflexivity.
  - reflexivity.
  - reflexivity.
  - vm_compute. reflexivity.
  - reflexivity.
  - reflexivity.
Defined.




(** X30. A failed upstream update.  When the notes of the file differ from
    the remote note and from the original note of the header, they are
    offered upstream; when that update fails nothing is counted or
    remembered, the bookmark keeps the remote note, and the file is compared
    with the document rendered from the remote note: it is left alone when
    equal and overwritten with that document when different.  In particular,
    when the file is the same at both reads and the extractor does not find
    the local notes in the document rendered from the remote note, the file
    is overwritten and the local edit is gone. *)
Theorem reconcileExisting_failed_update
    (toLocaleDateString : JSDate -> jsstring) (st : HoarderSettings)
    (bookmark : HoarderBookmark) (docTitle : jsstring)
    (highlights : list HoarderHighlight) (processed : ProcessedAssets)
    (file : ExistingFile) (current doc : jsstring) :
  updateExistingFiles st = true ->
  syncNotesToHoarder st = true ->
  extractNotesSection (contentAtExtract file) = Some current ->
  current <> orEmpty (note bookmark) ->
  metadataOriginalNote file <> Some current ->
  formatBookmarkAsMarkdown toLocaleDateString st bookmark docTitle
    (Some highlights) processed = Some doc ->
  exists r,
    reconcileExisting toLocaleDateString st false bookmark docTitle
      highlights processed file = Some r
    /\ upstream r = Some current
    /\ updatedInHoarder r = 0
    /\ lastSyncedAfter r = None
    /\ originalNoteInit r = None
    /\ bookmarkAfter r = bookmark
    /\ fileWritten r
       = (if bool_decide (contentAtCompare file = doc) then None
          else Some doc)
    /\ (contentAtCompare file = contentAtExtract file ->
        extractNotesSection doc <> Some current ->
        fileWritten r = Some doc).
Proof.
  intros Hupd Hsync Hcur Hremote Horig Hdoc.
  assert (Hstep : reconcileNotes false bookmark file
                  = pushNotes false
                      (match metadataOriginalNote file with
                       | None => true | Some _ => false end)
                      bookmark current).
  { unfold reconcileNotes. rewrite Hcur.
    rewrite (bool_decide_eq_false_2 _ Hremote).
    destruct (metadataOriginalNote file) as [o |]; [| reflexivity].
    assert (Hne : current <> o) by congruence.
    rewrite (bool_decide_eq_false_2 _ Hne). reflexivity. }
  unfold reconcileExisting. rewrite Hupd, Hsync, Hstep.
  simpl negb. cbv iota. simpl stepBookmark. rewrite Hdoc.
  eexists. split; [reflexivity |]. simpl.
  split; [reflexivity |]. split; [reflexivity |]. split; [reflexivity |].
  split; [reflexivity |]. split; [reflexivity |].
  split.
  - destruct (bool_decide (contentAtCompare file = doc)); reflexivity.
  - intros Hsame Hlost.
    assert (Hchanged : contentAtCompare file <> doc).
    { intros E. rewrite Hsame in E. rewrite E in Hcur. contradiction. }
    rewrite (bool_decide_eq_false_2 _ Hchanged). reflexivity.
Qed.

Lemma reconcileExisting_failed_update_witness :
  exists r,
    reconcileExisting Sample.longDate Fixture.updating false
      (Fixture.noted Fixture.remoteNote) (lit "An Article")
      [Sample.highlight1] Sample.noAssets Fixture.edited = Some r
    /\ upstream r = Some Fixture.localNote
    /\ bookmarkAfter r = Fixture.noted Fixture.remoteNote
    /\ fileWritten r = Some Fixture.remoteDoc
    /\ extractNotesSection Fixture.remoteDoc = Some Fixture.remoteNote.
Proof.
  destruct (reconcileExisting_failed_update Sample.longDate Fixture.updating
              (Fixture.noted Fixture.remoteNote) (lit "An Article")
              [Sample.highlight1] Sample.noAssets Fixture.edited
              Fixture.localNote Fixture.remoteDoc)
    as (r & Hr & Hup & _ & _ & _ & Hb & _ & Hlost).
  - reflexivity.
  - reflexivity.
  - vm_compute. reflexivity.
  - vm_compute. discriminate.
  - vm_compute. discriminate.
  - vm_compute. reflexivity.
  - exists r. split; [exact Hr |]. split; [exact Hup |].
    split; [exact Hb |]. split; [| vm_compute; reflexivity].
    apply Hlost; [reflexivity | vm_compute; discriminate].
Defined.
